(** * Spotify Ontario analysis: the report generator

    A shallow embedding of [generate_report.py] (class [ReportGenerator]):
    the loader [load_data], the summary statistics, the five chart-building
    methods and [generate_html_report], with the pandas operations they call;
    of the launcher [run_dashboard.py]; and of the overview metrics of
    [dashboard/app.py].

    Conventions.
    - A table ([pd.DataFrame]) is its row count and a finite map from column
      names to columns; a cell is null (NaN / None / NaT), a number or a
      string.  Numbers are exact rationals in canonical form ([Qc]): float64
      rounding is not part of the model, and neither are infinities.
    - A chart method returns [fig.to_html(...)] or [None]; here it returns
      the figure handed to plotly (the data plotted), or [None].
    - Methods that assign to [self.tracks_df] thread the generator through.
    - [raise] and [try]/[except] are modelled with the result type [res]. *)

From Stdlib Require Import ZArith QArith Qcanon Reals Qreals Lra Lia Ascii String.
From stdpp Require Import numbers strings gmap fin_maps sorting list.

Local Open Scope string_scope.
Local Open Scope list_scope.
Local Open Scope nat_scope.

(** ** Exceptions *)

Inductive exn := FileNotFoundError | ValueError.

Inductive res (A : Type) :=
| Ok (a : A)
| Raise (e : exn).
Arguments Ok {A} a.
Arguments Raise {A} e.

#[export] Instance res_ret : MRet res := @Ok.
#[export] Instance res_bind : MBind res := λ A B f m,
  match m with Ok a => f a | Raise e => Raise e end.

(** [try: body / except: handler] with a bare [except]. *)
Definition try_except {A} (body : res A) (handler : A) : A :=
  match body with Ok a => a | Raise _ => handler end.

(** ** Cells, columns and tables *)

Inductive value :=
| VNull
| VNum (q : Qc)
| VStr (s : string).

#[export] Instance value_eq_dec : EqDecision value.
Proof. solve_decision. Defined.

Record DataFrame := {
  index : nat;                         (* number of rows: len(df) *)
  columns : gmap string (list value)   (* df.columns and df[c] *)
}.

Definition len (df : DataFrame) : nat := index df.

(** [df[c] = s]: a new column, or the old one replaced. *)
Definition setitem (df : DataFrame) (c : string) (s : list value) : DataFrame :=
  {| index := index df; columns := <[c := s]> (columns df) |}.

(** [f in df.columns]. *)
Definition in_columns (df : DataFrame) (f : string) : Prop :=
  is_Some (columns df !! f).

(** [[f for f in features if f in df.columns]]. *)
Definition available (df : DataFrame) (features : list string) : list string :=
  filter (in_columns df) features.

(** [df[c]] for a column the caller has checked to be present. *)
Definition getitem (df : DataFrame) (c : string) : list value :=
  default [] (columns df !! c).

(** Every column has one cell per row. *)
Definition well_formed (df : DataFrame) : Prop :=
  ∀ c s, columns df !! c = Some s → length s = index df.

(** ** pandas: missing values, numeric reductions *)

Definition notna (v : value) : Prop := v ≠ VNull.

(** [Series.dropna()]. *)
Definition dropna (s : list value) : list value := filter notna s.

(** The float a numeric reduction reads in a cell; every other cell is
    skipped (the audio features and years are numeric columns). *)
Definition as_float (v : value) : option Qc :=
  match v with VNum q => Some q | _ => None end.

Definition floats (s : list value) : list Qc := omap as_float s.

(** [Series.nunique()]: distinct non-null values. *)
Definition nunique (s : list value) : nat := length (remove_dups (dropna s)).

Definition Qc_min (a b : Qc) : Qc := if decide (a ≤ b)%Qc then a else b.
Definition Qc_max (a b : Qc) : Qc := if decide (a ≤ b)%Qc then b else a.

(** [Series.min()] and [Series.max()], [skipna=True]: NaN ([None]) when no
    value is left. *)
Definition series_min (s : list value) : option Qc :=
  match floats s with [] => None | x :: l => Some (foldl Qc_min x l) end.

Definition series_max (s : list value) : option Qc :=
  match floats s with [] => None | x :: l => Some (foldl Qc_max x l) end.

Definition Qc_sum (l : list Qc) : Qc := foldr Qcplus 0%Qc l.

(** [Series.mean()], [skipna=True]: NaN ([None]) when no value is left. *)
Definition mean (l : list Qc) : option Qc :=
  match l with
  | [] => None
  | _ => Some (Qc_sum l / Qc_of_Z (Z.of_nat (length l)))%Qc
  end.

Definition series_mean (s : list value) : option Qc := mean (floats s).

(** [int(x)] for a float: truncation, and [ValueError] on NaN. *)
Definition int_ (x : option Qc) : res Z :=
  match x with
  | None => Raise ValueError
  | Some q => Ok (Z.quot (Qnum q) (Zpos (Qden q)))
  end.

(** ** pandas: [pd.to_datetime(s, errors='coerce').dt.year]

    The date parser is pandas' own; the model takes it as given.  With
    [errors='coerce'] it returns, for each cell, a year or NaT ([None]). *)
Class DatetimeParser := {
  to_datetime_year : list value → list (option Z);
  to_datetime_year_length :
    ∀ s, length (to_datetime_year s) = length s
}.

(** The cell holding a year: a float, NaN for NaT. *)
Definition year_cell (y : option Z) : value :=
  match y with Some y => VNum (Qc_of_Z y) | None => VNull end.

(** ** pandas: [Series.value_counts()]

    [dropna=True], [sort=True], [ascending=False]: nulls are dropped, the
    distinct values are counted in the order they are first met, and the
    counts are sorted in descending order.  pandas leaves the order of equal
    counts to its sort; the sort is taken to be stable, so that equal counts
    keep the order in which their values are first met. *)

(** One more occurrence of [v] in the table of counts. *)
Fixpoint bump (v : value) (acc : list (value * nat)) : list (value * nat) :=
  match acc with
  | [] => [(v, 1)]
  | (w, n) :: acc' =>
      if decide (v = w) then (w, S n) :: acc' else (w, n) :: bump v acc'
  end.

Definition value_count (s : list value) : list (value * nat) :=
  foldl (λ acc v, bump v acc) [] s.

(** Insertion before the first entry whose count is not larger. *)
Fixpoint insert_desc (p : value * nat) (l : list (value * nat))
  : list (value * nat) :=
  match l with
  | [] => [p]
  | q :: l' => if decide (p.2 < q.2) then q :: insert_desc p l' else p :: l
  end.

Definition sort_desc (l : list (value * nat)) : list (value * nat) :=
  foldr insert_desc [] l.

Definition value_counts (s : list value) : list (value * nat) :=
  sort_desc (value_count (dropna s)).

(** [Series.head(n)]. *)
Definition head {A} (n : nat) (l : list A) : list A := take n l.

(** ** pandas: [df.groupby(key)[cols].mean().reset_index()]

    [sort=True], [dropna=True]: one row per distinct non-null key, in
    ascending order of the key; each cell the mean of the column over the
    rows of the group, nulls skipped. *)

Fixpoint insert_key (k : Qc) (l : list Qc) : list Qc :=
  match l with
  | [] => [k]
  | x :: l' =>
      if decide (k < x)%Qc then k :: l
      else if decide (k = x) then l
      else x :: insert_key k l'
  end.

Definition group_keys (keys : list value) : list Qc :=
  foldr insert_key [] (floats keys).

(** The cells of column [s] on the rows whose key is [k]. *)
Definition group_cells (k : Qc) (keys s : list value) : list value :=
  (filter (λ r, as_float r.1 = Some k) (zip keys s)).*2.

Definition groupby_mean (keys : list value) (cols : list (list value))
  : list (Qc * list (option Qc)) :=
  (λ k, (k, (λ s, series_mean (group_cells k keys s)) <$> cols)) <$> group_keys keys.

(** ** pandas: [df.corr()]

    Pearson correlation over pairwise-complete observations
    ([min_periods=1]), accumulated in one pass (Welford); the entry is NaN
    ([None]) when there is no observation or a variance is zero.  The lower
    triangle is computed and mirrored.  Entries are real numbers. *)

Record welford := {
  nobs : nat;
  meanx : R; meany : R;
  ssqdm_x : R; ssqdm_y : R;
  covxy : R
}.

Definition welford_init : welford :=
  {| nobs := 0; meanx := 0; meany := 0; ssqdm_x := 0; ssqdm_y := 0; covxy := 0 |}.

Definition welford_step (w : welford) (v : R * R) : welford :=
  let n := S (nobs w) in
  let dx := (v.1 - meanx w)%R in
  let dy := (v.2 - meany w)%R in
  let mx := (meanx w + / INR n * dx)%R in
  let my := (meany w + / INR n * dy)%R in
  {| nobs := n; meanx := mx; meany := my;
     ssqdm_x := (ssqdm_x w + (v.1 - mx) * dx)%R;
     ssqdm_y := (ssqdm_y w + (v.2 - my) * dy)%R;
     covxy := (covxy w + (v.1 - mx) * dy)%R |}.

Definition to_R (q : Qc) : R := Q2R q.

(** The rows on which both columns hold a number. *)
Fixpoint complete_pairs (xs ys : list value) : list (R * R) :=
  match xs, ys with
  | x :: xs', y :: ys' =>
      match as_float x, as_float y with
      | Some a, Some b => (to_R a, to_R b) :: complete_pairs xs' ys'
      | _, _ => complete_pairs xs' ys'
      end
  | _, _ => []
  end.

Definition nancorr_pair (xs ys : list value) : option R :=
  let w := foldl welford_step welford_init (complete_pairs xs ys) in
  if decide (nobs w < 1) then None
  else
    let divisor := sqrt (ssqdm_x w * ssqdm_y w) in
    if Req_dec_T divisor 0 then None else Some (covxy w / divisor)%R.

(** Entry [(i, j)]: computed for [j ≤ i] and mirrored. *)
Definition nancorr_entry (cols : list (list value)) (i j : nat) : option R :=
  let xi := Nat.max i j in
  let yi := Nat.min i j in
  nancorr_pair (default [] (cols !! xi)) (default [] (cols !! yi)).

Definition corr (cols : list (list value)) : list (list (option R)) :=
  let K := seq 0 (length cols) in
  (λ i, (λ j, nancorr_entry cols i j) <$> K) <$> K.

(** ** Python strings *)

Definition is_lower (c : ascii) : bool :=
  let n := nat_of_ascii c in (97 <=? n)%nat && (n <=? 122)%nat.
Definition is_upper (c : ascii) : bool :=
  let n := nat_of_ascii c in (65 <=? n)%nat && (n <=? 90)%nat.
Definition to_upper (c : ascii) : ascii :=
  if is_lower c then ascii_of_nat (nat_of_ascii c - 32) else c.
Definition to_lower (c : ascii) : ascii :=
  if is_upper c then ascii_of_nat (nat_of_ascii c + 32) else c.

Fixpoint title_from (in_word : bool) (s : string) : string :=
  match s with
  | EmptyString => EmptyString
  | String c s' =>
      String (if in_word then to_lower c else to_upper c)
             (title_from (is_lower c || is_upper c) s')
  end.

(** [str.title()]. *)
Definition title (s : string) : string := title_from false s.

(** The characters of a string. *)
Definition chars (s : string) : list ascii := list_ascii_of_string s.

(** [s.endswith(suffix)]. *)
Definition endswith (s suffix : string) : bool :=
  bool_decide (chars suffix `suffix_of` chars s).

(** [s.startswith(prefix)]. *)
Definition startswith (s p : string) : bool :=
  bool_decide (chars p `prefix_of` chars s).

(** ** The data directory

    What [glob.glob], [os.path.getctime] and the two pandas readers see: the
    entries of [data_dir] in the order the directory lists them, each with
    its creation time and the table it holds. *)

Record File := {
  name : string;
  ctime : Z;
  frame : DataFrame
}.

(** A pattern [prefix*suffix], as in [clean_tracks_*.parquet]. *)
Record pattern := {
  pat_prefix : string;
  pat_suffix : string
}.

Definition fnmatch (p : pattern) (n : string) : bool :=
  (String.length (pat_prefix p) + String.length (pat_suffix p) <=? String.length n)%nat
  && startswith n (pat_prefix p) && endswith n (pat_suffix p).

(** [glob.glob(pattern)]. *)
Definition glob (p : pattern) (dir : list File) : list File :=
  filter (λ f, fnmatch p (name f) = true) dir.

(** [max(x :: l, key=key)]: the first of the largest. *)
Fixpoint max_by (key : File → Z) (x : File) (l : list File) : File :=
  match l with
  | [] => x
  | y :: l' => max_by key (if (key x <? key y)%Z then y else x) l'
  end.

Inductive reader := read_parquet | read_csv.

Definition parquet_pattern (stem : string) : pattern :=
  {| pat_prefix := stem; pat_suffix := ".parquet" |}.

Definition csv_pattern (stem : string) : pattern :=
  {| pat_prefix := stem; pat_suffix := ".csv" |}.

Definition track_patterns : list pattern :=
  [parquet_pattern "clean_tracks_"; csv_pattern "clean_tracks_"].

Definition playlist_patterns : list pattern :=
  [parquet_pattern "clean_playlists_"; csv_pattern "clean_playlists_"].

(** The loop [for pattern in patterns: ... break] of [load_data]: the file
    loaded and the reader it is loaded with, [None] when no pattern matches. *)
Fixpoint load_latest (patterns : list pattern) (dir : list File)
  : option (reader * File) :=
  match patterns with
  | [] => None
  | p :: ps =>
      match glob p dir with
      | [] => load_latest ps dir
      | f :: files =>
          let latest_file := max_by ctime f files in
          Some (if endswith (name latest_file) ".parquet" then read_parquet else read_csv,
                latest_file)
      end
  end.

(** ** The report generator *)

Record ReportGenerator := {
  tracks_df : DataFrame;
  playlists_df : option DataFrame
}.

Definition load_data (dir : list File) : res ReportGenerator :=
  let tracks := load_latest track_patterns dir in
  let playlists := load_latest playlist_patterns dir in
  match tracks with
  | None => Raise FileNotFoundError
  | Some (_, f) =>
      Ok {| tracks_df := frame f; playlists_df := (λ p, frame p.2) <$> playlists |}
  end.

Record SummaryStats := {
  total_tracks : nat;
  total_playlists : nat;
  unique_artists : nat;
  unique_albums : nat;
  (* [None]: no such key; [Some None]: the key holds [None]. *)
  year_range : option (option (Z * Z))
}.

Inductive Figure :=
| Histogram (x : list value) (nbins : nat)
| Scatterpolar (r : list (option Qc)) (theta : list string)
| Scatter (traces : list (string * (list Qc * list (option Qc))))
| Bar (x : list nat) (y : list value)
| Imshow (labels : list string) (z : list (list (option R))).

Section report.
Context `{DatetimeParser}.

Definition create_summary_stats (self : ReportGenerator)
  : SummaryStats * ReportGenerator :=
  let df := tracks_df self in
  let stats := {|
    total_tracks := len df;
    total_playlists := from_option len 0%nat (playlists_df self);
    unique_artists := from_option nunique 0%nat (columns df !! "artist");
    unique_albums := from_option nunique 0%nat (columns df !! "album");
    year_range := None |} in
  match columns df !! "release_date" with
  | None => (stats, self)
  | Some release_date =>
      let df' := setitem df "release_year" (year_cell <$> to_datetime_year release_date) in
      let range :=
        try_except
          (lo ← int_ (series_min (getitem df' "release_year"));
           hi ← int_ (series_max (getitem df' "release_year"));
           mret (Some (lo, hi)))
          None in
      ({| total_tracks := total_tracks stats;
          total_playlists := total_playlists stats;
          unique_artists := unique_artists stats;
          unique_albums := unique_albums stats;
          year_range := Some range |},
       {| tracks_df := df'; playlists_df := playlists_df self |})
  end.

End report.

Definition create_popularity_chart (self : ReportGenerator) : option Figure :=
  match columns (tracks_df self) !! "popularity" with
  | None => None
  | Some popularity => Some (Histogram popularity 20)
  end.

Definition radar_features : list string :=
  ["danceability"; "energy"; "valence"; "acousticness";
   "instrumentalness"; "liveness"; "speechiness"].

Definition create_audio_features_radar (self : ReportGenerator) : option Figure :=
  let df := tracks_df self in
  let available_features := available df radar_features in
  match available_features with
  | [] => None
  | _ =>
      let means := (λ f, series_mean (getitem df f)) <$> available_features in
      Some (Scatterpolar means (title <$> available_features))
  end.

Definition trend_features : list string := ["danceability"; "energy"; "valence"].

Definition reasonable_year (y : Qc) : Prop :=
  (Qc_of_Z 1990 ≤ y)%Qc ∧ (y ≤ Qc_of_Z 2025)%Qc.

#[export] Instance reasonable_year_dec y : Decision (reasonable_year y).
Proof. unfold reasonable_year. apply _. Defined.

Definition create_yearly_trends (self : ReportGenerator) : option Figure :=
  let df := tracks_df self in
  match columns df !! "release_year" with
  | None => None
  | Some release_year =>
      let available_features := available df trend_features in
      match available_features with
      | [] => None
      | _ =>
          let yearly_trends :=
            groupby_mean release_year (getitem df <$> available_features) in
          let yearly_trends := filter (λ r, reasonable_year r.1) yearly_trends in
          Some (Scatter
                  (imap (λ i feature,
                           (title feature,
                            (yearly_trends.*1,
                             (λ r, default None (r.2 !! i)) <$> yearly_trends)))
                        available_features))
      end
  end.

Definition create_top_artists_chart (self : ReportGenerator) : option Figure :=
  match columns (tracks_df self) !! "artist" with
  | None => None
  | Some artist =>
      let artist_counts := head 15 (value_counts artist) in
      Some (Bar artist_counts.*2 artist_counts.*1)
  end.

Definition heatmap_features : list string :=
  ["danceability"; "energy"; "valence"; "tempo"; "loudness";
   "acousticness"; "instrumentalness"; "liveness"; "speechiness"].

Definition create_correlation_heatmap (self : ReportGenerator) : option Figure :=
  let df := tracks_df self in
  let available_features := available df heatmap_features in
  if decide (length available_features < 2) then None
  else Some (Imshow available_features (corr (getitem df <$> available_features))).

(** A section of the report: the chart, or the "no data" placeholder. *)
Inductive section :=
| Chart (fig : Figure)
| NoData (message : string).

Definition section_of (chart : option Figure) (message : string) : section :=
  from_option Chart (NoData message) chart.

Record Report := {
  stats_cards : SummaryStats;
  popularity_section : section;
  radar_section : section;
  artists_section : section;
  trends_section : section;
  correlation_section : section
}.

Section pipeline.
Context `{DatetimeParser}.

Definition generate_html_report (self : ReportGenerator) : Report * ReportGenerator :=
  let '(stats, self) := create_summary_stats self in
  let popularity_chart := create_popularity_chart self in
  let radar_chart := create_audio_features_radar self in
  let trends_chart := create_yearly_trends self in
  let artists_chart := create_top_artists_chart self in
  let correlation_chart := create_correlation_heatmap self in
  ({| stats_cards := stats;
      popularity_section := section_of popularity_chart "Popularity data not available";
      radar_section := section_of radar_chart "Audio features data not available";
      artists_section := section_of artists_chart "Artist data not available";
      trends_section := section_of trends_chart "Temporal data not available";
      correlation_section := section_of correlation_chart "Correlation data not available" |},
   self).

(** [main]: the report, or the exception [main] catches before returning
    [False]. *)
Definition main (dir : list File) : res Report :=
  generator ← load_data dir;
  mret (generate_html_report generator).1.




End pipeline.

(** * The launcher: [run_dashboard.py] *)

Module run_dashboard.

(** [s.replace(old, new)] for one-character [old] and [new]. *)
Fixpoint replace (old new : ascii) (s : string) : string :=
  match s with
  | EmptyString => EmptyString
  | String c s' => String (if decide (c = old) then new else c) (replace old new s')
  end.

Definition required_packages : list string :=
  ["streamlit"; "plotly"; "pandas"; "python-dotenv"].

(** [modules]: the names [__import__] finds; any other name raises
    [ImportError]. *)
Definition missing_packages (modules : gset string) : list string :=
  filter (λ package, replace "-" "_" package ∉ modules) required_packages.

Definition check_requirements (modules : gset string) : bool :=
  bool_decide (missing_packages modules = []).

(** [csv_files + parquet_files]. *)
Definition processed_files (dir : list File) : list File :=
  glob (csv_pattern "clean_tracks_") dir ++ glob (parquet_pattern "clean_tracks_") dir.

(** [data_dir]: the entries of [data/processed], [None] when the directory
    does not exist. *)
Definition check_data (data_dir : option (list File)) : bool :=
  match data_dir with
  | None => false
  | Some dir =>
      match glob (csv_pattern "clean_tracks_") dir,
            glob (parquet_pattern "clean_tracks_") dir with
      | [], [] => false
      | _, _ => true
      end
  end.

(** How [subprocess.run(cmd, check=True)] ends. *)
Inductive run_outcome :=
| Completed                  (* exit status 0: the call returns *)
| CalledProcessError         (* non-zero exit status *)
| KeyboardInterrupt
| OtherException.

(** The value returned: [Some b] for [return b], [None] when the function
    runs off its end. *)
Definition launch_dashboard (app_exists : bool) (run : run_outcome) : option bool :=
  if negb app_exists then Some false
  else
    match run with
    | Completed => None
    | KeyboardInterrupt => Some true
    | CalledProcessError => Some false
    | OtherException => Some false
    end.

(** What [main] finds when it runs. *)
Record Project := {
  dashboard_exists : bool;            (* Path("dashboard").exists() *)
  modules : gset string;
  data_processed : option (list File);
  app_exists : bool;                  (* Path("dashboard/app.py").exists() *)
  streamlit_run : run_outcome
}.

(** The truth value of a returned value. *)
Definition truthy (v : option bool) : bool := default false v.

(** The exit status of the script: 1 for [sys.exit(1)], 0 when [main]
    returns. *)
Definition main (p : Project) : nat :=
  if negb (dashboard_exists p) then 1
  else if negb (check_requirements (modules p)) then 1
  else if negb (check_data (data_processed p)) then 1
  else
    let success := launch_dashboard (app_exists p) (streamlit_run p) in
    if truthy success then 0 else 1.

End run_dashboard.

(** * The dashboard: the overview page of [dashboard/app.py] *)

Module dashboard_app.

Inductive error := ZeroDivisionError | ValueError.

Inductive raised (A : Type) :=
| Returns (a : A)
| Raises (e : error).
Arguments Returns {A} a.
Arguments Raises {A} e.

(** An entry of [data['top_tracks']]. *)
Record Track := {
  popularity : Qc;
  release_date : string
}.

(** [int(s)] for a string: Python's own parser, taken as given; [None] is
    [ValueError]. *)
Class IntParser := { int : string → option Z }.

Section overview.
Context `{IntParser}.

(** [max(int(track['release_date'][:4]) for track in top_tracks)]. *)
Definition latest_year (top_tracks : list Track) : raised Z :=
  match mapM (λ track, int (substring 0 4 (release_date track))) top_tracks with
  | None => Raises ValueError
  | Some [] => Raises ValueError
  | Some (y :: years) => Returns (foldl Z.max y years)
  end.

(** [sum(track['popularity'] for track in top_tracks) / len(top_tracks)]. *)
Definition avg_popularity (top_tracks : list Track) : raised Qc :=
  match top_tracks with
  | [] => Raises ZeroDivisionError
  | _ => Returns (Qc_sum (popularity <$> top_tracks)
                  / Qc_of_Z (Z.of_nat (length top_tracks)))%Qc
  end.

(** The three metrics of the overview page, in the order they are
    computed: total tracks, average popularity, latest year. *)
Definition overview (top_tracks : list Track) : raised (nat * Qc * Z) :=
  let total := length top_tracks in
  match avg_popularity top_tracks with
  | Raises e => Raises e
  | Returns avg =>
      match latest_year top_tracks with
      | Raises e => Raises e
      | Returns latest => Returns (total, avg, latest)
      end
  end.

End overview.

End dashboard_app.

(** * The vocabulary of the properties *)

(** The years of the dates that parse. *)
Definition parsed_years (ys : list (option Z)) : list Z := omap (λ y, y) ys.





(** The cells of column [s] on the rows whose date parses to year [y]. *)
Definition rows_of_year (y : Z) (ys : list (option Z)) (s : list value) : list value :=
  (filter (λ r, r.1 = Some y) (zip ys s)).*2.

(** Entry [(i, j)] of a matrix given by its rows. *)
Definition matrix_entry {A} (z : list (list A)) (i j : nat) : option A :=
  z !! i ≫= (.!! j).

(** The column holds two different numbers: its variance is not zero. *)
Definition varies (s : list value) : Prop :=
  ∃ a b, VNum a ∈ s ∧ VNum b ∈ s ∧ a ≠ b.

(** What the accumulation keeps true: sums of squares are not negative and
    bound the sum of products (Cauchy-Schwarz). *)
Definition welford_ok (w : welford) : Prop :=
  (0 <= ssqdm_x w)%R ∧ (0 <= ssqdm_y w)%R
  ∧ (covxy w * covxy w <= ssqdm_x w * ssqdm_y w)%R.

(** The accumulation over a column paired with itself. *)
Definition welford_diag (l : list R) : welford :=
  foldl welford_step welford_init ((λ v, (v, v)) <$> l).

(** The name of [f] matches one of the patterns. *)
Definition matches_any (ps : list pattern) (f : File) : Prop :=
  Exists (λ p, fnmatch p (name f) = true) ps.

(** * Example data *)

(** ** A parser for the examples: ISO dates [YYYY-MM-DD] *)

Definition digit (c : ascii) : option Z :=
  let n := nat_of_ascii c in
  if (48 <=? n)%nat && (n <=? 57)%nat then Some (Z.of_nat (n - 48)) else None.

Definition iso_year (v : value) : option Z :=
  match v with
  | VStr (String a (String b (String c (String d rest)))) =>
      if bool_decide (rest = "" ∨ startswith rest "-" = true) then
        a ← digit a; b ← digit b; c ← digit c; d ← digit d;
        Some (1000 * a + 100 * b + 10 * c + d)%Z
      else None
  | _ => None
  end.

Definition iso_parser : DatetimeParser := {|
  to_datetime_year := fmap iso_year;
  to_datetime_year_length := λ s, length_fmap iso_year s
|}.

Definition num (a : Z) (b : positive) : value := VNum (Q2Qc (a # b)).

(** The three tracks of the specification's scenario. *)
Definition example_dates : list value :=
  [VStr "2020-01-01"; VStr "2021-06-01"; VStr "2020-03-01"].

Definition example_artists : list value := [VStr "A"; VStr "A"; VStr "B"].

Definition example_tracks : DataFrame := {|
  index := 3;
  columns := list_to_map [
    ("artist", example_artists);
    ("popularity", [num 80 1; num 60 1; num 90 1]);
    ("release_date", example_dates);
    ("danceability", [num 1 2; num 7 10; num 9 10]) ]
|}.

Definition example_generator : ReportGenerator :=
  {| tracks_df := example_tracks; playlists_df := None |}.

(** Two tracks with the same danceability. *)
Definition flat_tracks : DataFrame := {|
  index := 2;
  columns := list_to_map [
    ("danceability", [num 1 2; num 1 2]);
    ("energy", [num 1 5; num 4 5]) ]
|}.


Definition old_parquet : File :=
  {| name := "clean_tracks_20240101.parquet"; ctime := 10; frame := flat_tracks |}.
Definition new_parquet : File :=
  {| name := "clean_tracks_20240301.parquet"; ctime := 30; frame := example_tracks |}.
Definition mid_csv : File :=
  {| name := "clean_tracks_20240201.csv"; ctime := 20; frame := flat_tracks |}.

Definition example_dir : list File := [old_parquet; mid_csv; new_parquet].

(** Two tracks whose danceability is missing. *)
Definition sparse_tracks : DataFrame := {|
  index := 2;
  columns := list_to_map [
    ("danceability", [VNull; VNull]);
    ("energy", [num 1 5; num 4 5]) ]
|}.

Definition sparse_generator : ReportGenerator :=
  {| tracks_df := sparse_tracks; playlists_df := None |}.


(** * Properties *)

(** ** The loader *)



Lemma max_by_ge_first key x l : (key x ≤ key (max_by key x l))%Z.
Proof.
  revert x. induction l as [|y l IH]; intros x; simpl; [lia|].
  specialize (IH (if (key x <? key y)%Z then y else x)).
  destruct (Z.ltb_spec (key x) (key y)); lia.
Qed.


Lemma fnmatch_endswith p n : fnmatch p n = true → endswith n (pat_suffix p) = true.
Proof. unfold fnmatch. rewrite !andb_true_iff. tauto. Qed.

Lemma csv_is_not_parquet n :
  endswith n ".csv" = true → endswith n ".parquet" = false.
Proof.
  unfold endswith. rewrite bool_decide_eq_true, bool_decide_eq_false.
  intros Hcsv Hparquet.
  destruct (suffix_weak_total _ _ _ Hcsv Hparquet) as [Hs|Hs];
    apply (bool_decide_pack _) in Hs; vm_compute in Hs; done.
Qed.



Lemma load_latest_None ps dir :
  load_latest ps dir = None ↔ ∀ p, p ∈ ps → glob p dir = [].
Proof.
  induction ps as [|p ps IH]; simpl.
  - split; [|done]. intros _ p Hp. by apply elem_of_nil in Hp.
  - destruct (glob p dir) as [|f files] eqn:Hg.
    + rewrite IH. split.
      * intros Hall q Hq. apply elem_of_cons in Hq as [->|Hq]; auto.
      * intros Hall q Hq. apply Hall. by right.
    + split; [done|]. intros Hall. specialize (Hall p). rewrite Hg in Hall.
      discriminate Hall. by left.
Qed.



(** ** Tables *)

Lemma getitem_setitem df c s : getitem (setitem df c s) c = s.
Proof. unfold getitem, setitem. simpl. by rewrite lookup_insert_eq. Qed.

Lemma lookup_setitem_ne df c c' s :
  c ≠ c' → columns (setitem df c s) !! c' = columns df !! c'.
Proof. intros Hne. unfold setitem. simpl. by rewrite lookup_insert_ne. Qed.


Lemma available_setitem_other df c s features :
  c ∉ features → available (setitem df c s) features = available df features.
Proof.
  unfold available. induction features as [|f features IH]; intros Hc; [done|].
  apply not_elem_of_cons in Hc as [Hne Hc].
  rewrite !filter_cons, IH by done.
  assert (Hiff : in_columns (setitem df c s) f ↔ in_columns df f).
  { unfold in_columns. by rewrite (lookup_setitem_ne df c f s Hne). }
  repeat case_decide; tauto.
Qed.

Lemma getitem_setitem_ne df c c' s :
  c ≠ c' → getitem (setitem df c s) c' = getitem df c'.
Proof. intros Hne. unfold getitem. by rewrite lookup_setitem_ne. Qed.

Lemma well_formed_setitem df c s :
  well_formed df → length s = index df → well_formed (setitem df c s).
Proof.
  intros Hwf Hlen c' s'. unfold setitem; simpl.
  destruct (decide (c = c')) as [->|Hne].
  - rewrite lookup_insert_eq. by intros [= <-].
  - rewrite lookup_insert_ne by done. apply Hwf.
Qed.

(** ** Years: cells, minimum and maximum *)

Lemma floats_year_cells ys :
  floats (year_cell <$> ys) = Qc_of_Z <$> parsed_years ys.
Proof.
  unfold floats, parsed_years. induction ys as [|[y|] ys IH]; csimpl; [done| |done].
  by f_equal.
Qed.

Lemma Qc_min_of_Z a b : Qc_min (Qc_of_Z a) (Qc_of_Z b) = Qc_of_Z (Z.min a b).
Proof.
  unfold Qc_min. case_decide as Hle.
  - apply Z2Qc_inj_le in Hle. by rewrite Z.min_l.
  - rewrite <- Z2Qc_inj_le in Hle. by rewrite Z.min_r by lia.
Qed.

Lemma Qc_max_of_Z a b : Qc_max (Qc_of_Z a) (Qc_of_Z b) = Qc_of_Z (Z.max a b).
Proof.
  unfold Qc_max. case_decide as Hle.
  - apply Z2Qc_inj_le in Hle. by rewrite Z.max_r.
  - rewrite <- Z2Qc_inj_le in Hle. by rewrite Z.max_l by lia.
Qed.

Lemma foldl_Qc_min_of_Z x l :
  foldl Qc_min (Qc_of_Z x) (Qc_of_Z <$> l) = Qc_of_Z (foldl Z.min x l).
Proof.
  revert x. induction l as [|y l IH]; intros x; simpl; [done|].
  by rewrite Qc_min_of_Z, IH.
Qed.

Lemma foldl_Qc_max_of_Z x l :
  foldl Qc_max (Qc_of_Z x) (Qc_of_Z <$> l) = Qc_of_Z (foldl Z.max x l).
Proof.
  revert x. induction l as [|y l IH]; intros x; simpl; [done|].
  by rewrite Qc_max_of_Z, IH.
Qed.

Lemma foldl_Zmin_spec x l :
  foldl Z.min x l ∈ x :: l ∧ ∀ y, y ∈ x :: l → (foldl Z.min x l ≤ y)%Z.
Proof.
  revert x. induction l as [|z l IH]; intros x; simpl.
  - split; [left|]. intros y Hy. apply list_elem_of_singleton in Hy. lia.
  - destruct (IH (Z.min x z)) as [Hin Hle]. split.
    + apply elem_of_cons in Hin as [Hin|Hin]; [|right; by right].
      rewrite Hin. destruct (Z.min_spec x z) as [[_ ->]|[_ ->]]; [left|right; left].
    + intros y Hy. apply elem_of_cons in Hy as [->|Hy].
      * specialize (Hle (Z.min x z)). etransitivity; [apply Hle; left|lia].
      * apply elem_of_cons in Hy as [->|Hy].
        -- specialize (Hle (Z.min x z)). etransitivity; [apply Hle; left|lia].
        -- apply Hle. by right.
Qed.

Lemma foldl_Zmax_spec x l :
  foldl Z.max x l ∈ x :: l ∧ ∀ y, y ∈ x :: l → (y ≤ foldl Z.max x l)%Z.
Proof.
  revert x. induction l as [|z l IH]; intros x; simpl.
  - split; [left|]. intros y Hy. apply list_elem_of_singleton in Hy. lia.
  - destruct (IH (Z.max x z)) as [Hin Hle]. split.
    + apply elem_of_cons in Hin as [Hin|Hin]; [|right; by right].
      rewrite Hin. destruct (Z.max_spec x z) as [[_ ->]|[_ ->]]; [right; left|left].
    + intros y Hy. apply elem_of_cons in Hy as [->|Hy].
      * specialize (Hle (Z.max x z)). etransitivity; [|apply Hle; left]. lia.
      * apply elem_of_cons in Hy as [->|Hy].
        -- specialize (Hle (Z.max x z)). etransitivity; [|apply Hle; left]. lia.
        -- apply Hle. by right.
Qed.

Lemma int_of_year y : int_ (Some (Qc_of_Z y)) = Ok y.
Proof. unfold int_. simpl. by rewrite Z.quot_1_r. Qed.

Lemma series_min_year_cells ys :
  series_min (year_cell <$> ys)
  = match parsed_years ys with
    | [] => None
    | x :: l => Some (Qc_of_Z (foldl Z.min x l))
    end.
Proof.
  unfold series_min. rewrite floats_year_cells.
  destruct (parsed_years ys) as [|x l]; simpl; [done|].
  by rewrite foldl_Qc_min_of_Z.
Qed.

Lemma series_max_year_cells ys :
  series_max (year_cell <$> ys)
  = match parsed_years ys with
    | [] => None
    | x :: l => Some (Qc_of_Z (foldl Z.max x l))
    end.
Proof.
  unfold series_max. rewrite floats_year_cells.
  destruct (parsed_years ys) as [|x l]; simpl; [done|].
  by rewrite foldl_Qc_max_of_Z.
Qed.

(** ** Summary statistics *)

Section summary_stats.
Context `{DatetimeParser}.

(** Without a [release_date] column nothing is assigned and the statistics
    have no [year_range] key. *)
Lemma create_summary_stats_no_dates self :
  columns (tracks_df self) !! "release_date" = None →
  (create_summary_stats self).2 = self
  ∧ year_range (create_summary_stats self).1 = None.
Proof. intros Hd. unfold create_summary_stats. by rewrite Hd. Qed.

(** With one, [release_year] is assigned, whatever happens next. *)
Lemma create_summary_stats_assigns self release_date :
  columns (tracks_df self) !! "release_date" = Some release_date →
  tracks_df (create_summary_stats self).2
  = setitem (tracks_df self) "release_year"
            (year_cell <$> to_datetime_year release_date)
  ∧ playlists_df (create_summary_stats self).2 = playlists_df self.
Proof. intros Hd. unfold create_summary_stats. by rewrite Hd. Qed.

Lemma create_summary_stats_year_range self release_date :
  columns (tracks_df self) !! "release_date" = Some release_date →
  year_range (create_summary_stats self).1
  = Some match parsed_years (to_datetime_year release_date) with
         | [] => None
         | x :: l => Some (foldl Z.min x l, foldl Z.max x l)
         end.
Proof.
  intros Hd. unfold create_summary_stats. rewrite Hd. cbn [fst year_range].
  rewrite getitem_setitem, series_min_year_cells, series_max_year_cells.
  destruct (parsed_years _) as [|x l]; [done|].
  by rewrite !int_of_year.
Qed.

Lemma create_summary_stats_counts self :
  let stats := (create_summary_stats self).1 in
  total_tracks stats = len (tracks_df self)
  ∧ total_playlists stats = from_option len 0%nat (playlists_df self)
  ∧ unique_artists stats = from_option nunique 0%nat (columns (tracks_df self) !! "artist")
  ∧ unique_albums stats = from_option nunique 0%nat (columns (tracks_df self) !! "album").
Proof.
  unfold create_summary_stats.
  by destruct (columns (tracks_df self) !! "release_date").
Qed.

(** Without an [artist] column no artist is counted. *)
Lemma unique_artists_without_column self :
  columns (tracks_df self) !! "artist" = None →
  unique_artists (create_summary_stats self).1 = 0.
Proof.
  intros Ha. destruct (create_summary_stats_counts self) as (_ & _ & -> & _).
  by rewrite Ha.
Qed.


(** The table stays well formed: the new column has one cell per row. *)
Lemma create_summary_stats_well_formed self :
  well_formed (tracks_df self) →
  well_formed (tracks_df (create_summary_stats self).2).
Proof.
  intros Hwf.
  destruct (columns (tracks_df self) !! "release_date") as [dates|] eqn:Hd.
  - destruct (create_summary_stats_assigns self dates Hd) as [-> _].
    apply well_formed_setitem; [done|].
    rewrite length_fmap, to_datetime_year_length. by apply (Hwf "release_date").
  - by destruct (create_summary_stats_no_dates self Hd) as [-> _].
Qed.

(** C8. The statistics report as [total_tracks] the number of rows of the
    tracks table; the call leaves that number unchanged. *)
Theorem total_tracks_is_row_count (self : ReportGenerator) :
  total_tracks (create_summary_stats self).1 = len (tracks_df self)
  ∧ len (tracks_df (create_summary_stats self).2) = len (tracks_df self).
Proof.
  split; [apply create_summary_stats_counts|].
  unfold create_summary_stats.
  by destruct (columns (tracks_df self) !! "release_date").
Qed.

(** C5. On a table with a [release_date] column, [year_range] holds the
    smallest and the largest of the years the dates parse to, unparsable
    dates left out; when no date parses, the [ValueError] of [int(NaN)] is
    caught and [year_range] is [None].  Either way the call returns. *)
Theorem year_range_min_max_or_None (self : ReportGenerator) (release_date : list value) :
  columns (tracks_df self) !! "release_date" = Some release_date →
  let years := parsed_years (to_datetime_year release_date) in
  (years = [] → year_range (create_summary_stats self).1 = Some None)
  ∧ (years ≠ [] →
     ∃ lo hi, year_range (create_summary_stats self).1 = Some (Some (lo, hi))
              ∧ lo ∈ years ∧ hi ∈ years
              ∧ ∀ y, y ∈ years → (lo ≤ y ≤ hi)%Z).
Proof.
  intros Hd years. rewrite (create_summary_stats_year_range _ _ Hd).
  fold years. destruct years as [|x l]; split; try done.
  intros _. exists (foldl Z.min x l), (foldl Z.max x l).
  destruct (foldl_Zmin_spec x l) as [Hlo Hmin].
  destruct (foldl_Zmax_spec x l) as [Hhi Hmax].
  repeat split; auto.
Qed.

End summary_stats.

(** ** Charts without their columns *)



Lemma create_yearly_trends_None self :
  create_yearly_trends self = None
  ↔ columns (tracks_df self) !! "release_year" = None
    ∨ available (tracks_df self) trend_features = [].
Proof.
  unfold create_yearly_trends.
  destruct (columns (tracks_df self) !! "release_year");
    destruct (available (tracks_df self) trend_features); intuition congruence.
Qed.



Lemma load_data_raises dir :
  load_data dir = Raise FileNotFoundError
  ↔ ∀ p, p ∈ track_patterns → glob p dir = [].
Proof.
  rewrite <- load_latest_None. unfold load_data.
  destruct (load_latest track_patterns dir) as [[r f]|]; intuition congruence.
Qed.

Lemma load_data_cases dir :
  load_data dir = Raise FileNotFoundError ∨ ∃ self, load_data dir = Ok self.
Proof.
  unfold load_data.
  destruct (load_latest track_patterns dir) as [[r f]|]; eauto.
Qed.


(** ** The hidden order between the statistics and the trends *)

Lemma release_year_not_trend_feature : "release_year" ∉ trend_features.
Proof. unfold trend_features. rewrite !not_elem_of_cons. by repeat split; [..|apply not_elem_of_nil]. Qed.

Lemma available_trend_features_after_stats `{DatetimeParser} self :
  available (tracks_df (create_summary_stats self).2) trend_features
  = available (tracks_df self) trend_features.
Proof.
  destruct (columns (tracks_df self) !! "release_date") as [dates|] eqn:Hd.
  - destruct (create_summary_stats_assigns self dates Hd) as [-> _].
    apply available_setitem_other, release_year_not_trend_feature.
  - by destruct (create_summary_stats_no_dates self Hd) as [-> _].
Qed.


(** ** Repeated calls *)


(** ** Counting values *)













(** ** Sorting the counts *)












(** ** Top artists *)






(** ** Grouping by year *)

Lemma elem_of_insert_key k l x : x ∈ insert_key k l ↔ x = k ∨ x ∈ l.
Proof.
  induction l as [|z l IH]; simpl.
  - rewrite list_elem_of_singleton, elem_of_nil. tauto.
  - repeat case_decide; subst; rewrite ?elem_of_cons, ?IH; tauto.
Qed.

Lemma insert_key_sorted k l :
  StronglySorted Qclt l → StronglySorted Qclt (insert_key k l).
Proof.
  induction l as [|z l IH]; simpl; intros Hs.
  - repeat constructor.
  - apply StronglySorted_inv in Hs as [Hs Hz].
    destruct (decide (k < z)%Qc) as [Hlt|Hnlt].
    + constructor; [by constructor|]. constructor; [done|].
      eapply Forall_impl; [exact Hz|]. intros x Hx. by transitivity z.
    + destruct (decide (k = z)) as [->|Hne]; [by constructor|].
      constructor; [auto|]. apply Forall_forall. intros x Hx.
      apply elem_of_insert_key in Hx as [->|Hx].
      * apply Qcnot_le_lt. intros Hle. apply Qcle_lt_or_eq in Hle as [?|?]; auto.
      * by eapply Forall_forall in Hz.
Qed.

Lemma group_keys_spec keys :
  StronglySorted Qclt (group_keys keys)
  ∧ ∀ k, k ∈ group_keys keys ↔ VNum k ∈ keys.
Proof.
  unfold group_keys, floats. induction keys as [|v keys [Hs Hel]]; csimpl.
  - split; [constructor|]. intros k. by rewrite !elem_of_nil.
  - destruct v as [|q|t]; csimpl.
    + split; [done|]. intros k. rewrite Hel, elem_of_cons. intuition congruence.
    + split; [by apply insert_key_sorted|]. intros k.
      rewrite elem_of_insert_key, Hel, elem_of_cons. intuition congruence.
    + split; [done|]. intros k. rewrite Hel, elem_of_cons. intuition congruence.
Qed.

Lemma StronglySorted_Qclt_NoDup l : StronglySorted Qclt l → NoDup l.
Proof.
  induction 1 as [|x l Hs IH Hx]; constructor; [|done].
  intros Hin. eapply Forall_forall in Hx; [|exact Hin].
  by apply Qclt_not_eq in Hx.
Qed.

Lemma filter_fmap {A B} (f : A → B) (P : B → Prop) `{∀ b, Decision (P b)}
    (l : list A) :
  filter P (f <$> l) = f <$> filter (λ a, P (f a)) l.
Proof.
  induction l as [|a l IH]; csimpl; [done|].
  rewrite !filter_cons, IH. by case_decide.
Qed.

Lemma StronglySorted_filter {A} (R : relation A) (P : A → Prop)
    `{∀ a, Decision (P a)} (l : list A) :
  StronglySorted R l → StronglySorted R (filter P l).
Proof.
  induction 1 as [|x l Hs IH Hx]; [constructor|].
  rewrite filter_cons. case_decide; [|done].
  constructor; [done|]. apply Forall_forall. intros y [_ Hy]%list_elem_of_filter.
  by eapply Forall_forall in Hx.
Qed.

(** A list of years held as floats is the image of a list of integers. *)
Lemma years_of_keys (l : list Qc) :
  Forall (λ k, ∃ y, k = Qc_of_Z y) l → ∃ years, l = Qc_of_Z <$> years.
Proof.
  induction 1 as [|k l [y ->] _ [years ->]].
  - by exists [].
  - by exists (y :: years).
Qed.

Lemma StronglySorted_of_Z years :
  StronglySorted Qclt (Qc_of_Z <$> years) → StronglySorted Z.lt years.
Proof.
  induction years as [|y years IH]; csimpl; intros Hs; [constructor|].
  apply StronglySorted_inv in Hs as [Hs Hy]. constructor; [auto|].
  apply Forall_forall. intros z Hz. apply Z2Qc_inj_lt.
  eapply Forall_forall in Hy; [exact Hy|]. apply list_elem_of_fmap. eauto.
Qed.

Lemma StronglySorted_Zlt_NoDup l : StronglySorted Z.lt l → NoDup l.
Proof.
  induction 1 as [|x l Hs IH Hx]; constructor; [|done].
  intros Hin. eapply Forall_forall in Hx; [|exact Hin]. lia.
Qed.

Lemma year_cell_num (ys : list (option Z)) k : VNum k ∈ year_cell <$> ys ↔ ∃ y, k = Qc_of_Z y ∧ Some y ∈ ys.
Proof.
  rewrite list_elem_of_fmap. split.
  - intros ([y|] & Heq & Hin); [|discriminate]. injection Heq as ->. eauto.
  - intros (y & -> & Hin). by exists (Some y).
Qed.

Lemma reasonable_year_of_Z y : reasonable_year (Qc_of_Z y) ↔ (1990 ≤ y ≤ 2025)%Z.
Proof. unfold reasonable_year. by rewrite <- !Z2Qc_inj_le. Qed.

Lemma group_cells_year_cells y (ys : list (option Z)) s :
  group_cells (Qc_of_Z y) (year_cell <$> ys) s = rows_of_year y ys s.
Proof.
  unfold group_cells, rows_of_year.
  revert s. induction ys as [|o ys IH]; intros [|v s]; csimpl; try done.
  rewrite !filter_cons. simpl. destruct o as [z|]; simpl.
  - destruct (decide (z = y)) as [->|Hne].
    + rewrite !decide_True by done. csimpl. f_equal. apply IH.
    + rewrite !decide_False; [apply IH|congruence|].
      intros Heq. apply Hne, Z2Qc_inj. congruence.
  - apply IH.
Qed.

(** The rows of [groupby_mean], filtered on their keys. *)
Lemma filter_groupby_mean (P : Qc → Prop) `{∀ k, Decision (P k)} keys cols :
  filter (λ r, P r.1) (groupby_mean keys cols)
  = (λ k, (k, (λ s, series_mean (group_cells k keys s)) <$> cols))
      <$> filter P (group_keys keys).
Proof. unfold groupby_mean. by rewrite filter_fmap. Qed.

(** The chart, one trace for each available feature: the years kept as
    [x], the means of the feature over each year's rows as [y]. *)
Lemma create_yearly_trends_Some self release_year :
  columns (tracks_df self) !! "release_year" = Some release_year →
  available (tracks_df self) trend_features ≠ [] →
  create_yearly_trends self
  = Some (Scatter
            ((λ feature,
                (title feature,
                 (filter reasonable_year (group_keys release_year),
                  (λ k, series_mean
                          (group_cells k release_year (getitem (tracks_df self) feature)))
                    <$> filter reasonable_year (group_keys release_year))))
               <$> available (tracks_df self) trend_features)).
Proof.
  intros Hy Hav. unfold create_yearly_trends. rewrite Hy.
  destruct (available (tracks_df self) trend_features) as [|f fs] eqn:Hfs; [done|].
  rewrite <- Hfs. clear Hav. do 2 f_equal.
  rewrite (filter_groupby_mean reasonable_year).
  etransitivity; [|apply imap_const].
  apply imap_ext. intros i feature Hi. unfold const.
  do 2 f_equal.
  - rewrite <- list_fmap_compose. apply list_fmap_id.
  - rewrite <- list_fmap_compose. apply list_fmap_ext. intros _ k _. simpl.
    by rewrite !list_lookup_fmap, Hi.
Qed.

(** On any table the years plotted are strictly ascending and reasonable. *)
Lemma create_yearly_trends_years self traces :
  create_yearly_trends self = Some (Scatter traces) →
  ∀ name x y, (name, (x, y)) ∈ traces →
    StronglySorted Qclt x ∧ Forall reasonable_year x ∧ length y = length x.
Proof.
  intros Hc name x y Hin.
  destruct (columns (tracks_df self) !! "release_year") as [release_year|] eqn:Hy;
    [|by rewrite (proj2 (create_yearly_trends_None self)) in Hc; [|left]].
  destruct (decide (available (tracks_df self) trend_features = [])) as [Hnil|Hav];
    [by rewrite (proj2 (create_yearly_trends_None self)) in Hc; [|right]|].
  rewrite (create_yearly_trends_Some _ _ Hy Hav) in Hc. injection Hc as <-.
  apply list_elem_of_fmap in Hin as (feature & [= -> -> ->] & _).
  split; [|split].
  - apply StronglySorted_filter, group_keys_spec.
  - apply Forall_forall. by intros k [Hk _]%list_elem_of_filter.
  - by rewrite length_fmap.
Qed.

Lemma available_elem df features f : f ∈ available df features → f ∈ features.
Proof. unfold available. by intros [_ ?]%list_elem_of_filter. Qed.

(** The years kept by the chart, as integers. *)
Lemma reasonable_years_of_cells (ys : list (option Z)) :
  ∃ years : list Z,
    filter reasonable_year (group_keys (year_cell <$> ys)) = Qc_of_Z <$> years
    ∧ StronglySorted Z.lt years
    ∧ ∀ y, y ∈ years ↔ Some y ∈ ys ∧ (1990 ≤ y ≤ 2025)%Z.
Proof.
  destruct (group_keys_spec (year_cell <$> ys)) as [Hsorted Hel].
  destruct (years_of_keys (filter reasonable_year (group_keys (year_cell <$> ys))))
    as [years Hyears].
  { apply Forall_forall. intros k [_ Hk]%list_elem_of_filter.
    apply Hel, year_cell_num in Hk as (y & -> & _). eauto. }
  exists years. split; [done|]. split.
  - apply StronglySorted_of_Z. rewrite <- Hyears. by apply StronglySorted_filter.
  - intros y.
    assert (Hiff : y ∈ years ↔ Qc_of_Z y ∈ Qc_of_Z <$> years).
    { rewrite list_elem_of_fmap. split; [eauto|].
      by intros (z & ->%Z2Qc_inj & Hz). }
    rewrite Hiff, <- Hyears, list_elem_of_filter, Hel, year_cell_num.
    rewrite reasonable_year_of_Z. split.
    + by intros [Hr (z & ->%Z2Qc_inj & Hz)].
    + intros [Hy Hr]. eauto.
Qed.

(** C3, as the code has it.  Once [create_summary_stats] has parsed
    [release_date] into [release_year], the trends chart has one trace for
    each available trend feature; its [x] are the distinct years the dates
    parse to (NaT left out) that lie in [1990, 2025], in strictly ascending
    order, and its [y] the means of the feature, nulls skipped, over the rows
    of each of these years. *)
Theorem yearly_trends_after_summary_stats
    `{DatetimeParser} (self : ReportGenerator) (release_date : list value) :
  columns (tracks_df self) !! "release_date" = Some release_date →
  available (tracks_df self) trend_features ≠ [] →
  ∃ years : list Z,
    create_yearly_trends (create_summary_stats self).2
    = Some (Scatter
              ((λ feature,
                  (title feature,
                   (Qc_of_Z <$> years,
                    (λ y, series_mean
                            (rows_of_year y (to_datetime_year release_date)
                                          (getitem (tracks_df self) feature)))
                      <$> years)))
                 <$> available (tracks_df self) trend_features))
    ∧ StronglySorted Z.lt years
    ∧ NoDup years
    ∧ ∀ y, y ∈ years
           ↔ Some y ∈ to_datetime_year release_date ∧ (1990 ≤ y ≤ 2025)%Z.
Proof.
  intros Hd Hav.
  destruct (reasonable_years_of_cells (to_datetime_year release_date))
    as (years & Hyears & Hsorted & Hel).
  exists years. split; [|split; [done|split; [by apply StronglySorted_Zlt_NoDup|done]]].
  pose proof (available_trend_features_after_stats self) as Hsame.
  destruct (create_summary_stats_assigns self _ Hd) as [Hdf _].
  rewrite (create_yearly_trends_Some _ (year_cell <$> to_datetime_year release_date)).
  - rewrite Hsame, Hyears. do 2 f_equal.
    apply list_fmap_ext. intros _ feature Hf%list_elem_of_lookup_2.
    do 3 f_equal. rewrite <- list_fmap_compose.
    apply list_fmap_ext. intros _ y _. simpl.
    rewrite Hdf, getitem_setitem_ne, group_cells_year_cells; [done|].
    intros <-. by apply available_elem, release_year_not_trend_feature in Hf.
  - rewrite Hdf. unfold setitem. simpl. apply lookup_insert_eq.
  - by rewrite Hsame.
Qed.

(** ** Correlation *)

Section welford_facts.
Local Open Scope R_scope.

Lemma inv_S_INR (n : nat) : 0 < / INR (S n) <= 1.
Proof.
  assert (Hn : 1 <= INR (S n)).
  { rewrite S_INR. pose proof (pos_INR n). lra. }
  split.
  - apply Rinv_0_lt_compat. lra.
  - rewrite <- Rinv_1. apply Rinv_le_contravar; lra.
Qed.

(** The step, with [t = 1 / nobs]. *)
Lemma welford_step_eq w v :
  let t := / INR (S (nobs w)) in
  let dx := v.1 - meanx w in
  let dy := v.2 - meany w in
  welford_step w v
  = {| nobs := S (nobs w);
       meanx := meanx w + t * dx; meany := meany w + t * dy;
       ssqdm_x := ssqdm_x w + (1 - t) * (dx * dx);
       ssqdm_y := ssqdm_y w + (1 - t) * (dy * dy);
       covxy := covxy w + (1 - t) * (dx * dy) |}.
Proof. intros t dx dy. unfold welford_step. fold t dx dy. f_equal; unfold dx, dy; ring. Qed.

Lemma cross_term_bound (sx sy c a b : R) :
  0 <= sx → 0 <= sy → c * c <= sx * sy →
  2 * (c * (a * b)) <= sx * (b * b) + sy * (a * a).
Proof.
  intros Hsx Hsy Hc.
  destruct (Req_dec sx 0) as [Hz|Hnz].
  - subst sx. rewrite Rmult_0_l in Hc.
    assert (Hc0 : c = 0).
    { pose proof (Rle_0_sqr c) as Hsqr. apply Rsqr_0_uniq.
      unfold Rsqr in *. lra. }
    subst c. pose proof (Rle_0_sqr a) as Ha. unfold Rsqr in Ha. nra.
  - assert (Hpos : 0 < sx) by lra.
    pose proof (Rle_0_sqr (sx * b - c * a)) as Hsq. unfold Rsqr in Hsq.
    assert (Hgap : 0 <= (sx * sy - c * c) * (a * a)).
    { apply Rmult_le_pos; [lra|]. apply Rle_0_sqr. }
    apply Rmult_le_reg_l with sx; [done|].
    replace (sx * (sx * (b * b) + sy * (a * a)))
      with ((sx * b - c * a) * (sx * b - c * a) + (sx * sy - c * c) * (a * a)
            + sx * (2 * (c * (a * b)))) by ring.
    lra.
Qed.

Lemma welford_step_ok w v : welford_ok w → welford_ok (welford_step w v).
Proof.
  intros (Hx & Hy & Hc). rewrite welford_step_eq. unfold welford_ok.
  cbn [ssqdm_x ssqdm_y covxy].
  destruct (inv_S_INR (nobs w)) as [Ht0 Ht1].
  set (t := / INR (S (nobs w))) in *.
  set (dx := v.1 - meanx w). set (dy := v.2 - meany w).
  pose proof (cross_term_bound _ _ _ dx dy Hx Hy Hc) as Hcross.
  pose proof (Rle_0_sqr dx) as Hdx. pose proof (Rle_0_sqr dy) as Hdy.
  unfold Rsqr in Hdx, Hdy.
  assert (Hu : 0 <= 1 - t) by lra. revert Hu. generalize (1 - t). intros u Hu.
  pose proof (Rmult_le_pos _ _ Hu Hdx) as Hux.
  pose proof (Rmult_le_pos _ _ Hu Hdy) as Huy.
  split; [lra|]. split; [lra|].
  assert (Hgap : 0 <= u * (ssqdm_x w * (dy * dy) + ssqdm_y w * (dx * dx)
                           - 2 * (covxy w * (dx * dy)))).
  { apply Rmult_le_pos; lra. }
  replace ((covxy w + u * (dx * dy)) * (covxy w + u * (dx * dy)))
    with (covxy w * covxy w + u * (2 * (covxy w * (dx * dy)))
          + u * (dx * dx) * (u * (dy * dy))) by ring.
  replace ((ssqdm_x w + u * (dx * dx)) * (ssqdm_y w + u * (dy * dy)))
    with (ssqdm_x w * ssqdm_y w
          + u * (ssqdm_x w * (dy * dy) + ssqdm_y w * (dx * dx))
          + u * (dx * dx) * (u * (dy * dy))) by ring.
  lra.
Qed.

Lemma welford_init_ok : welford_ok welford_init.
Proof. unfold welford_ok, welford_init. simpl. lra. Qed.

Lemma welford_fold_ok w l : welford_ok w → welford_ok (foldl welford_step w l).
Proof.
  revert w. induction l as [|v l IH]; intros w Hw; simpl; [done|].
  by apply IH, welford_step_ok.
Qed.



End welford_facts.

(** *** The diagonal *)

Section diagonal.
Local Open Scope R_scope.

Lemma welford_diag_snoc l v :
  welford_diag (l ++ [v]) = welford_step (welford_diag l) (v, v).
Proof. unfold welford_diag. by rewrite fmap_app, foldl_app. Qed.

Lemma welford_diag_sym l :
  meany (welford_diag l) = meanx (welford_diag l)
  ∧ ssqdm_y (welford_diag l) = ssqdm_x (welford_diag l)
  ∧ covxy (welford_diag l) = ssqdm_x (welford_diag l).
Proof.
  induction l as [|v l (Hm & Hy & Hc)] using rev_ind; [done|].
  rewrite welford_diag_snoc. unfold welford_step. simpl.
  by rewrite Hm, Hy, Hc.
Qed.

Lemma welford_diag_nobs l : nobs (welford_diag l) = length l.
Proof.
  induction l as [|v l IH] using rev_ind; [done|].
  rewrite welford_diag_snoc, length_app. simpl. rewrite IH. lia.
Qed.

Lemma welford_diag_ok l : welford_ok (welford_diag l).
Proof. apply welford_fold_ok, welford_init_ok. Qed.

(** A sum of squares is zero only when every value is the mean. *)
Lemma welford_diag_zero l :
  ssqdm_x (welford_diag l) = 0 → ∀ v, v ∈ l → v = meanx (welford_diag l).
Proof.
  induction l as [|x l IH] using rev_ind; intros Hz v Hv.
  - by apply elem_of_nil in Hv.
  - rewrite welford_diag_snoc, welford_step_eq in Hz |- *.
    cbn [ssqdm_x meanx fst] in Hz |- *.
    destruct (welford_diag_ok l) as (Hx & _).
    destruct (inv_S_INR (nobs (welford_diag l))) as [Ht0 Ht1].
    pose proof (welford_diag_nobs l) as Hn.
    set (w := welford_diag l) in *. set (t := / INR (S (nobs w))) in *.
    set (d := x - meanx w) in *.
    pose proof (Rle_0_sqr d) as Hd. unfold Rsqr in Hd.
    assert (Hprod : 0 <= (1 - t) * (d * d)) by (apply Rmult_le_pos; lra).
    assert (Hx0 : ssqdm_x w = 0) by lra.
    assert (Hp0 : (1 - t) * (d * d) = 0) by lra.
    destruct l as [|y l'].
    + apply list_elem_of_singleton in Hv as ->.
      assert (Ht : t = 1).
      { unfold t. rewrite Hn. simpl. apply Rinv_1. }
      rewrite Ht. unfold d. ring.
    + assert (Ht : t < 1).
      { unfold t. rewrite Hn. rewrite <- Rinv_1. apply Rinv_lt_contravar.
        - rewrite Rmult_1_l. apply lt_0_INR. lia.
        - rewrite S_INR. pose proof (lt_0_INR (length (y :: l'))) as Hpos.
          simpl length in *. assert (0 < INR (S (length l'))) by (apply Hpos; lia).
          lra. }
      assert (Hd0 : d = 0).
      { apply Rmult_integral in Hp0 as [?|Hdd]; [lra|].
        by apply Rsqr_0_uniq. }
      rewrite Hd0, Rmult_0_r, Rplus_0_r.
      apply elem_of_app in Hv as [Hv|Hv]; [by apply IH|].
      apply list_elem_of_singleton in Hv as ->. unfold d in Hd0. lra.
Qed.

(** It is zero when all values are the same. *)
Lemma welford_diag_constant l c :
  (∀ v, v ∈ l → v = c) →
  ssqdm_x (welford_diag l) = 0 ∧ (l ≠ [] → meanx (welford_diag l) = c).
Proof.
  induction l as [|x l IH] using rev_ind; intros Hall.
  - split; [done|]. by intros [].
  - destruct IH as [Hz Hm]. { intros v Hv. apply Hall, elem_of_app. by left. }
    assert (Hx : x = c). { apply Hall, elem_of_app. right. left. }
    rewrite welford_diag_snoc, welford_step_eq. cbn [ssqdm_x meanx fst].
    pose proof (welford_diag_nobs l) as Hn. rewrite Hz.
    destruct l as [|y l'].
    + assert (Ht : / INR (S (nobs (welford_diag []))) = 1).
      { rewrite Hn. simpl. apply Rinv_1. }
      rewrite Ht. split; [ring|]. intros _. lra.
    + rewrite Hm by done. subst x. split; [ring|]. intros _. ring.
Qed.

Lemma to_R_inj a b : to_R a = to_R b → a = b.
Proof. unfold to_R. intros Heq%eqR_Qeq. by apply Qc_is_canon. Qed.

Lemma complete_pairs_diag s :
  complete_pairs s s = (λ v, (v, v)) <$> (to_R <$> floats s).
Proof.
  unfold floats. induction s as [|[|q|t] s IH]; csimpl; [done|done| |done].
  by f_equal.
Qed.

Lemma nancorr_pair_diag s :
  nancorr_pair s s
  = if decide (floats s = []) then None
    else if Req_dec_T (ssqdm_x (welford_diag (to_R <$> floats s))) 0 then None
    else Some 1.
Proof.
  unfold nancorr_pair. rewrite complete_pairs_diag.
  fold (welford_diag (to_R <$> floats s)).
  set (l := to_R <$> floats s).
  destruct (welford_diag_sym l) as (_ & Hy & Hc).
  destruct (welford_diag_ok l) as (Hx & _).
  rewrite welford_diag_nobs, Hy, Hc, sqrt_square by done.
  unfold l. rewrite length_fmap.
  destruct (floats s) as [|q qs] eqn:Hf.
  - by rewrite decide_True by (simpl; lia).
  - rewrite decide_False by (simpl; lia). rewrite decide_False by done.
    destruct (Req_dec_T _ 0) as [|Hnz]; [done|].
    f_equal. by apply Rdiv_diag.
Qed.

Lemma elem_of_floats s q : q ∈ floats s ↔ VNum q ∈ s.
Proof.
  unfold floats. rewrite list_elem_of_omap. split.
  - intros ([|q'|t] & Hin & [= ->]). done.
  - intros Hin. by exists (VNum q).
Qed.

(** The diagonal entry of a column: 1 when the column varies, NaN when it
    holds no number or one number only. *)
Lemma nancorr_pair_diag_cases s :
  (varies s → nancorr_pair s s = Some 1)
  ∧ (¬ varies s → nancorr_pair s s = None).
Proof.
  rewrite nancorr_pair_diag. split.
  - intros (a & b & Ha & Hb & Hne).
    apply elem_of_floats in Ha, Hb.
    rewrite decide_False by (intros Hnil; rewrite Hnil in Ha; by apply elem_of_nil in Ha).
    destruct (Req_dec_T _ 0) as [Hz|]; [|done].
    exfalso. apply Hne, to_R_inj.
    rewrite (welford_diag_zero _ Hz (to_R a)), (welford_diag_zero _ Hz (to_R b));
      [done| |]; apply list_elem_of_fmap; eauto.
  - intros Hconst. case_decide as Hnil; [done|].
    destruct (floats s) as [|c qs] eqn:Hf; [done|].
    destruct (welford_diag_constant (to_R <$> c :: qs) (to_R c)) as [Hz _].
    { intros v (q & -> & Hq)%list_elem_of_fmap. f_equal.
      destruct (decide (q = c)) as [|Hne]; [done|].
      exfalso. apply Hconst. exists q, c. rewrite <- !elem_of_floats, Hf.
      split; [done|]. split; [left|done]. }
    by destruct (Req_dec_T _ 0).
Qed.

End diagonal.

(** *** The matrix *)


Lemma corr_entry cols i j :
  i < length cols → j < length cols →
  matrix_entry (corr cols) i j = Some (nancorr_entry cols i j).
Proof.
  intros Hi Hj. unfold matrix_entry, corr.
  rewrite list_lookup_fmap, lookup_seq_lt by done. simpl.
  by rewrite list_lookup_fmap, lookup_seq_lt by done.
Qed.

Lemma nancorr_entry_sym cols i j : nancorr_entry cols i j = nancorr_entry cols j i.
Proof. unfold nancorr_entry. by rewrite Nat.max_comm, Nat.min_comm. Qed.

Lemma nancorr_entry_diag cols i s :
  cols !! i = Some s → nancorr_entry cols i i = nancorr_pair s s.
Proof.
  intros Hs. unfold nancorr_entry. by rewrite Nat.max_id, Nat.min_id, Hs.
Qed.

Lemma create_correlation_heatmap_Some self :
  2 ≤ length (available (tracks_df self) heatmap_features) →
  create_correlation_heatmap self
  = Some (Imshow (available (tracks_df self) heatmap_features)
                 (corr (getitem (tracks_df self)
                          <$> available (tracks_df self) heatmap_features))).
Proof.
  intros Hlen. unfold create_correlation_heatmap. rewrite decide_False; [done|lia].
Qed.

(** The diagonal entry of a feature: 1 when its column varies, NaN when it
    does not. *)
Lemma corr_diagonal df features i f :
  features !! i = Some f →
  (varies (getitem df f) →
   matrix_entry (corr (getitem df <$> features)) i i = Some (Some 1%R))
  ∧ (¬ varies (getitem df f) →
     matrix_entry (corr (getitem df <$> features)) i i = Some None).
Proof.
  intros Hf.
  assert (Hcol : (getitem df <$> features) !! i = Some (getitem df f)).
  { by rewrite list_lookup_fmap, Hf. }
  pose proof (lookup_lt_Some _ _ _ Hcol) as Hi.
  rewrite corr_entry, (nancorr_entry_diag _ _ _ Hcol) by done.
  destruct (nancorr_pair_diag_cases (getitem df f)) as [Hone Hnan].
  split; intros Hv; f_equal; auto.
Qed.


(** * Further properties of the report generator *)

(** ** What the statistics step changes *)

Section summary_stats_effect.
Context `{DatetimeParser}.

Lemma lookup_after_stats self c :
  c ≠ "release_year" →
  columns (tracks_df (create_summary_stats self).2) !! c
  = columns (tracks_df self) !! c.
Proof.
  intros Hc.
  destruct (columns (tracks_df self) !! "release_date") as [dates|] eqn:Hd.
  - destruct (create_summary_stats_assigns self dates Hd) as [-> _].
    by apply lookup_setitem_ne.
  - by destruct (create_summary_stats_no_dates self Hd) as [-> _].
Qed.

Lemma release_year_after_stats self :
  columns (tracks_df (create_summary_stats self).2) !! "release_year"
  = match columns (tracks_df self) !! "release_date" with
    | Some release_date => Some (year_cell <$> to_datetime_year release_date)
    | None => columns (tracks_df self) !! "release_year"
    end.
Proof.
  destruct (columns (tracks_df self) !! "release_date") as [dates|] eqn:Hd.
  - destruct (create_summary_stats_assigns self dates Hd) as [-> _].
    unfold setitem. simpl. apply lookup_insert_eq.
  - by destruct (create_summary_stats_no_dates self Hd) as [-> _].
Qed.

(** X1. [create_summary_stats] changes nothing of the generator but the
    column [release_year]: every other column and the playlists table are
    as before, and [release_year] holds the parsed years when there is a
    [release_date] column and is untouched when there is none. *)
Theorem summary_stats_only_assigns_release_year (self : ReportGenerator) :
  (∀ c, c ≠ "release_year" →
        columns (tracks_df (create_summary_stats self).2) !! c
        = columns (tracks_df self) !! c)
  ∧ playlists_df (create_summary_stats self).2 = playlists_df self
  ∧ columns (tracks_df (create_summary_stats self).2) !! "release_year"
    = match columns (tracks_df self) !! "release_date" with
      | Some release_date => Some (year_cell <$> to_datetime_year release_date)
      | None => columns (tracks_df self) !! "release_year"
      end.
Proof.
  split; [apply lookup_after_stats|]. split; [|apply release_year_after_stats].
  destruct (columns (tracks_df self) !! "release_date") as [dates|] eqn:Hd.
  - by destruct (create_summary_stats_assigns self dates Hd) as [_ ->].
  - by destruct (create_summary_stats_no_dates self Hd) as [-> _].
Qed.

Lemma available_after_stats self features :
  "release_year" ∉ features →
  available (tracks_df (create_summary_stats self).2) features
  = available (tracks_df self) features.
Proof.
  intros Hnot.
  destruct (columns (tracks_df self) !! "release_date") as [dates|] eqn:Hd.
  - destruct (create_summary_stats_assigns self dates Hd) as [-> _].
    by apply available_setitem_other.
  - by destruct (create_summary_stats_no_dates self Hd) as [-> _].
Qed.





(** X3. In the report the trends section is the "no data" placeholder
    exactly when the table has neither a [release_date] nor a
    [release_year] column, or none of the three trend features: the
    statistics are computed before the trends, so a [release_date] column is
    enough. *)
Theorem report_trends_section_no_data (self : ReportGenerator) :
  trends_section (generate_html_report self).1 = NoData "Temporal data not available"
  ↔ (columns (tracks_df self) !! "release_date" = None
     ∧ columns (tracks_df self) !! "release_year" = None)
    ∨ available (tracks_df self) trend_features = [].
Proof.
  unfold generate_html_report.
  pose proof (release_year_after_stats self) as Hyear.
  pose proof (available_after_stats self _ release_year_not_trend_feature) as Hav.
  destruct (create_summary_stats self) as [stats self'] eqn:Hstats.
  cbn [fst snd trends_section] in *.
  assert (Hnone : section_of (create_yearly_trends self') "Temporal data not available"
                  = NoData "Temporal data not available"
                  ↔ create_yearly_trends self' = None).
  { destruct (create_yearly_trends self'); [|done]. split; discriminate. }
  rewrite Hnone, create_yearly_trends_None, Hyear, Hav.
  destruct (columns (tracks_df self) !! "release_date"); intuition congruence.
Qed.

End summary_stats_effect.

(** ** Artists: the statistics and the chart *)


Lemma nunique_le_length s : nunique s ≤ length s.
Proof.
  unfold nunique. etransitivity; [|apply (length_filter notna s)].
  apply submseteq_length, NoDup_submseteq; [apply NoDup_remove_dups|].
  intros a. by rewrite elem_of_remove_dups.
Qed.


(** X5. On a well-formed table the statistics count no more distinct
    artists or albums than there are tracks. *)
Theorem unique_counts_at_most_total_tracks
    `{DatetimeParser} (self : ReportGenerator) :
  well_formed (tracks_df self) →
  unique_artists (create_summary_stats self).1 ≤ total_tracks (create_summary_stats self).1
  ∧ unique_albums (create_summary_stats self).1 ≤ total_tracks (create_summary_stats self).1.
Proof.
  intros Hwf.
  destruct (create_summary_stats_counts self) as (-> & _ & -> & ->).
  unfold len. split.
  - destruct (columns (tracks_df self) !! "artist") as [s|] eqn:Hs; simpl; [|lia].
    rewrite <- (Hwf _ _ Hs). apply nunique_le_length.
  - destruct (columns (tracks_df self) !! "album") as [s|] eqn:Hs; simpl; [|lia].
    rewrite <- (Hwf _ _ Hs). apply nunique_le_length.
Qed.

(** ** Means stay within the range of the data *)

Lemma Qc_of_nat_S n : Qc_of_Z (Z.of_nat (S n)) = (Qc_of_Z (Z.of_nat n) + 1)%Qc.
Proof. by rewrite Nat2Z.inj_succ, <- Z.add_1_r, Z2Qc_inj_add, Z2Qc_inj_1. Qed.

Lemma Qc_of_nat_S_pos n : (0 < Qc_of_Z (Z.of_nat (S n)))%Qc.
Proof.
  rewrite <- Z2Qc_inj_0. apply (proj1 (Z2Qc_inj_lt 0 (Z.of_nat (S n)))). lia.
Qed.

Lemma Qc_sum_bounds l lo hi :
  (∀ q, q ∈ l → (lo ≤ q)%Qc ∧ (q ≤ hi)%Qc) →
  (lo * Qc_of_Z (Z.of_nat (length l)) ≤ Qc_sum l)%Qc
  ∧ (Qc_sum l ≤ hi * Qc_of_Z (Z.of_nat (length l)))%Qc.
Proof.
  induction l as [|q l IH]; intros Hall.
  - cbn [length Qc_sum foldr]. change (Z.of_nat 0) with 0%Z.
    rewrite Z2Qc_inj_0. split.
    + replace (lo * 0)%Qc with 0%Qc by ring. apply Qcle_refl.
    + replace (hi * 0)%Qc with 0%Qc by ring. apply Qcle_refl.
  - destruct IH as [IHlo IHhi]. { intros x Hx. apply Hall. by right. }
    destruct (Hall q) as [Hlo Hhi]; [left|].
    cbn [length]. rewrite Qc_of_nat_S. unfold Qc_sum. cbn [foldr]. fold (Qc_sum l).
    split.
    + replace (lo * (Qc_of_Z (Z.of_nat (length l)) + 1))%Qc
        with (lo + lo * Qc_of_Z (Z.of_nat (length l)))%Qc by ring.
      by apply Qcplus_le_compat.
    + replace (hi * (Qc_of_Z (Z.of_nat (length l)) + 1))%Qc
        with (hi + hi * Qc_of_Z (Z.of_nat (length l)))%Qc by ring.
      by apply Qcplus_le_compat.
Qed.

Lemma mean_bounds l lo hi m :
  (∀ q, q ∈ l → (lo ≤ q)%Qc ∧ (q ≤ hi)%Qc) →
  mean l = Some m → (lo ≤ m)%Qc ∧ (m ≤ hi)%Qc.
Proof.
  intros Hall Hm. destruct (Qc_sum_bounds l lo hi Hall) as [Hlo Hhi].
  destruct l as [|q l]; [done|]. injection Hm as <-.
  set (n := Qc_of_Z (Z.of_nat (length (q :: l)))) in *.
  assert (Hpos : (0 < n)%Qc) by apply Qc_of_nat_S_pos.
  assert (Hne : n ≠ 0%Qc).
  { intros Heq. apply Qclt_not_eq in Hpos. congruence. }
  split; apply (Qcmult_lt_0_le_reg_r _ _ n Hpos); by rewrite test_field.
Qed.




(** ** The trends of any table *)



(** ** Columns without numbers in the correlation matrix *)

Lemma complete_pairs_no_floats_l xs ys :
  (∀ q, ¬ (VNum q ∈ xs)) → complete_pairs xs ys = [].
Proof.
  revert ys. induction xs as [|x xs IH]; intros ys Hnone; [by destruct ys|].
  destruct ys as [|y ys]; [done|]. simpl.
  destruct x as [|q|t]; simpl.
  - apply IH. intros q Hq. apply (Hnone q). by right.
  - destruct (Hnone q). left.
  - apply IH. intros q Hq. apply (Hnone q). by right.
Qed.

Lemma complete_pairs_no_floats_r xs ys :
  (∀ q, ¬ (VNum q ∈ ys)) → complete_pairs xs ys = [].
Proof.
  revert ys. induction xs as [|x xs IH]; intros ys Hnone; [by destruct ys|].
  destruct ys as [|y ys]; [done|]. simpl.
  assert (Hrest : ∀ q, ¬ (VNum q ∈ ys)). { intros q Hq. apply (Hnone q). by right. }
  destruct y as [|q|t].
  - destruct (as_float x); by apply IH.
  - destruct (Hnone q). left.
  - destruct (as_float x); by apply IH.
Qed.

Lemma nancorr_pair_no_pairs xs ys :
  complete_pairs xs ys = [] → nancorr_pair xs ys = None.
Proof. intros Hnil. unfold nancorr_pair. by rewrite Hnil. Qed.

(** X8. A feature whose column holds no number (all cells null, or a table
    without rows) has NaN in its whole row and column of the correlation
    matrix, the diagonal included. *)
Theorem correlation_nan_for_column_without_numbers
    (self : ReportGenerator) (labels : list string) (z : list (list (option R)))
    (i : nat) (f : string) :
  create_correlation_heatmap self = Some (Imshow labels z) →
  labels !! i = Some f →
  (∀ q, ¬ (VNum q ∈ getitem (tracks_df self) f)) →
  ∀ j, j < length labels →
       matrix_entry z i j = Some None ∧ matrix_entry z j i = Some None.
Proof.
  unfold create_correlation_heatmap. case_decide; [done|].
  intros [= <- <-] Hf Hnone j Hj.
  set (cols := getitem (tracks_df self) <$> available (tracks_df self) heatmap_features).
  assert (Hcol : cols !! i = Some (getitem (tracks_df self) f)).
  { unfold cols. by rewrite list_lookup_fmap, Hf. }
  assert (Hlen : length cols = length (available (tracks_df self) heatmap_features))
    by apply length_fmap.
  pose proof (lookup_lt_Some _ _ _ Hcol) as Hi.
  assert (Hentry : nancorr_entry cols i j = None).
  { unfold nancorr_entry. apply nancorr_pair_no_pairs.
    destruct (Nat.max_spec i j) as [[Hlt ->]|[Hle ->]].
    - rewrite Nat.min_l by lia. rewrite Hcol.
      by apply complete_pairs_no_floats_r.
    - rewrite Nat.min_r by lia. rewrite Hcol.
      by apply complete_pairs_no_floats_l. }
  rewrite !corr_entry by lia. by rewrite (nancorr_entry_sym _ j i), Hentry.
Qed.

(** ** More on the loader *)

Lemma length_chars s : length (chars s) = String.length s.
Proof. unfold chars. induction s as [|c s IH]; simpl; [done|]. by rewrite IH. Qed.

Lemma app_eq_split {A} (l1 l2 k1 k2 : list A) :
  l1 ++ l2 = k1 ++ k2 → length l1 ≤ length k1 →
  ∃ m, k1 = l1 ++ m ∧ l2 = m ++ k2.
Proof.
  revert k1. induction l1 as [|x l1 IH]; intros k1 Heq Hlen.
  - by exists k1.
  - destruct k1 as [|y k1]; [simpl in Hlen; lia|].
    injection Heq as -> Heq. simpl in Hlen.
    destruct (IH k1 Heq) as (m & -> & ->); [lia|]. by exists m.
Qed.

(** X9. A name matches a pattern [prefix*suffix] exactly when it is the
    prefix, then any characters (none included), then the suffix: the
    prefix and the suffix may not overlap. *)
Theorem fnmatch_prefix_any_suffix (p : pattern) (n : string) :
  fnmatch p n = true
  ↔ ∃ middle, chars n = chars (pat_prefix p) ++ middle ++ chars (pat_suffix p).
Proof.
  unfold fnmatch, startswith, endswith.
  rewrite !andb_true_iff, !bool_decide_eq_true, Nat.leb_le, <- !length_chars.
  split.
  - intros [[Hlen [k Hk]] [k' Hk']].
    rewrite Hk in Hk'. rewrite Hk, length_app in Hlen.
    pose proof (f_equal length Hk') as Hl. rewrite !length_app in Hl.
    apply app_eq_split in Hk' as (m & _ & ->); [|lia].
    by exists m.
  - intros [middle Hn]. rewrite Hn, !length_app. split; [split|].
    + lia.
    + by eexists.
    + exists (chars (pat_prefix p) ++ middle). by rewrite <- app_assoc.
Qed.

(** Where the largest stands: everything listed before it is strictly
    smaller. *)
Lemma max_by_first key x l :
  ∃ l1 l2, x :: l = l1 ++ max_by key x l :: l2
           ∧ (∀ g, g ∈ l1 → (key g < key (max_by key x l))%Z)
           ∧ (∀ g, g ∈ l2 → (key g ≤ key (max_by key x l))%Z).
Proof.
  revert x. induction l as [|y l IH]; intros x.
  - exists [], []. split; [done|]. split; intros g Hg; by apply elem_of_nil in Hg.
  - simpl. destruct (Z.ltb_spec (key x) (key y)) as [Hlt|Hge].
    + destruct (IH y) as (l1 & l2 & Heq & Hbefore & Hafter).
      pose proof (max_by_ge_first key y l) as Hmax.
      set (m := max_by key y l) in *. clearbody m. clear IH.
      exists (x :: l1), l2. split; [by rewrite Heq|]. split; [|done].
      intros g [->|Hg]%elem_of_cons; [lia|by apply Hbefore].
    + destruct (IH x) as (l1 & l2 & Heq & Hbefore & Hafter).
      set (m := max_by key x l) in *. clearbody m. clear IH.
      destruct l1 as [|x' l1]; simpl in Heq; injection Heq as Hx Heq.
      * subst m l. exists [], (y :: l2). split; [done|].
        split; [intros g Hg; by apply elem_of_nil in Hg|].
        intros g [->|Hg]%elem_of_cons; [lia|by apply Hafter].
      * subst x' l. exists (x :: y :: l1), l2. split; [done|]. split; [|done].
        assert (Hxm : (key x < key m)%Z) by (apply Hbefore; left).
        intros g [->|[->|Hg]%elem_of_cons]%elem_of_cons; [done|lia|].
        apply Hbefore. by right.
Qed.

(** X10. What [load_latest] loads, for any list of patterns: the patterns
    before the one used match no file; among the files matching the pattern
    used, those listed before the file loaded are strictly older and those
    listed after it are no newer (of several newest files the first listed
    is loaded); the reader is chosen by the name's ending. *)
Theorem load_latest_first_pattern_first_newest
    (patterns : list pattern) (dir : list File) (r : reader) (f : File) :
  load_latest patterns dir = Some (r, f) →
  ∃ before p after l1 l2,
    patterns = before ++ p :: after
    ∧ (∀ q, q ∈ before → glob q dir = [])
    ∧ glob p dir = l1 ++ f :: l2
    ∧ (∀ g, g ∈ l1 → (ctime g < ctime f)%Z)
    ∧ (∀ g, g ∈ l2 → (ctime g ≤ ctime f)%Z)
    ∧ r = (if endswith (name f) ".parquet" then read_parquet else read_csv).
Proof.
  induction patterns as [|p ps IH]; [done|]. simpl.
  destruct (glob p dir) as [|x files] eqn:Hglob.
  - intros (before & p' & after & l1 & l2 & -> & Hnone & Hrest)%IH.
    exists (p :: before), p', after, l1, l2. split; [done|]. split; [|done].
    intros q [->|Hq]%elem_of_cons; auto.
  - intros [= <- <-].
    destruct (max_by_first ctime x files) as (l1 & l2 & Heq & Hbefore & Hafter).
    exists [], p, ps, l1, l2. split; [done|].
    split; [intros q Hq; by apply elem_of_nil in Hq|].
    by rewrite Hglob.
Qed.

(** Files matching no pattern change nothing. *)
Lemma glob_filter_matches ps p dir :
  p ∈ ps → glob p (filter (matches_any ps) dir) = glob p dir.
Proof.
  intros Hp. unfold glob. rewrite list_filter_filter. apply list_filter_iff.
  intros f. split; [tauto|]. intros Hm. split; [done|].
  apply Exists_exists. eauto.
Qed.

Lemma load_latest_filter_matches ps ps' dir :
  ps' ⊆ ps → load_latest ps' (filter (matches_any ps) dir) = load_latest ps' dir.
Proof.
  induction ps' as [|p ps' IH]; intros Hsub; [done|]. simpl.
  rewrite glob_filter_matches by (apply Hsub; left).
  destruct (glob p dir); [|done]. apply IH. intros q Hq. apply Hsub. by right.
Qed.

(** X11. [load_data] depends only on the files whose names match one of
    its four patterns: dropping every other entry of the directory changes
    neither the outcome nor the tables loaded. *)
Theorem load_data_ignores_other_files (dir : list File) :
  load_data (filter (matches_any (track_patterns ++ playlist_patterns)) dir)
  = load_data dir.
Proof.
  unfold load_data.
  rewrite !load_latest_filter_matches; [done| |];
    intros p Hp; apply elem_of_app; [by right|by left].
Qed.

(** X12. Playlists are optional: when a tracks file is found [load_data]
    returns, with no playlists table exactly when no playlists file matches,
    and the statistics then count no playlist. *)
Theorem playlists_are_optional `{DatetimeParser} (dir : list File) (self : ReportGenerator) :
  load_data dir = Ok self →
  (playlists_df self = None ↔ ∀ p, p ∈ playlist_patterns → glob p dir = [])
  ∧ (playlists_df self = None → total_playlists (create_summary_stats self).1 = 0)
  ∧ (∀ r f, load_latest playlist_patterns dir = Some (r, f) →
       playlists_df self = Some (frame f)
       ∧ total_playlists (create_summary_stats self).1 = len (frame f)).
Proof.
  unfold load_data. rewrite <- load_latest_None.
  generalize (load_latest playlist_patterns dir). intros pl.
  destruct (load_latest track_patterns dir) as [[rt ft]|]; [|done].
  intros [= <-].
  assert (Htotal : ∀ g, total_playlists (create_summary_stats g).1
                        = from_option len 0 (playlists_df g)).
  { intros g. apply create_summary_stats_counts. }
  split; [|split].
  - by destruct pl.
  - intros Hnone. by rewrite Htotal, Hnone.
  - intros r f ->. split; [done|]. by rewrite Htotal.
Qed.

(** * Properties of the launcher *)

Lemma filter_disjoint_length {A} (P Q : A → Prop)
    `{∀ a, Decision (P a)} `{∀ a, Decision (Q a)} (l : list A) :
  (∀ a, P a → Q a → False) →
  length (filter P l ++ filter Q l) = length (filter (λ a, P a ∨ Q a) l).
Proof.
  intros Hdisj. rewrite length_app. induction l as [|a l IH]; [done|].
  rewrite !filter_cons.
  destruct (decide (P a)) as [HP|HP]; destruct (decide (Q a)) as [HQ|HQ].
  - destruct (Hdisj a HP HQ).
  - rewrite decide_True by tauto. simpl. lia.
  - rewrite decide_True by tauto. simpl. lia.
  - rewrite decide_False by tauto. lia.
Qed.

(** X13. [check_requirements] passes exactly when the modules
    [streamlit], [plotly], [pandas] and [python_dotenv] can be imported: the
    package name [python-dotenv] is looked up with its dash replaced, not
    under the name [dotenv]. *)
Theorem check_requirements_imports (modules : gset string) :
  run_dashboard.check_requirements modules = true
  ↔ "streamlit" ∈ modules ∧ "plotly" ∈ modules ∧ "pandas" ∈ modules
    ∧ "python_dotenv" ∈ modules.
Proof.
  unfold run_dashboard.check_requirements, run_dashboard.missing_packages,
    run_dashboard.required_packages.
  rewrite bool_decide_eq_true, !filter_cons, filter_nil.
  change (run_dashboard.replace "-" "_" "streamlit") with "streamlit".
  change (run_dashboard.replace "-" "_" "plotly") with "plotly".
  change (run_dashboard.replace "-" "_" "pandas") with "pandas".
  change (run_dashboard.replace "-" "_" "python-dotenv") with "python_dotenv".
  repeat case_decide; split; try done; try tauto; intros (? & ? & ? & ?); done.
Qed.

Lemma check_data_Some dir :
  run_dashboard.check_data (Some dir) = true
  ↔ ∃ p, p ∈ track_patterns ∧ glob p dir ≠ [].
Proof.
  unfold run_dashboard.check_data, track_patterns.
  destruct (glob (csv_pattern "clean_tracks_") dir) as [|c cs] eqn:Hcsv;
    destruct (glob (parquet_pattern "clean_tracks_") dir) as [|q qs] eqn:Hpq.
  - split; [done|]. intros (p & Hp & Hne).
    apply elem_of_cons in Hp as [->|Hp]; [done|].
    apply list_elem_of_singleton in Hp as ->. done.
  - split; [|done]. intros _. exists (parquet_pattern "clean_tracks_").
    split; [left|]. by rewrite Hpq.
  - split; [|done]. intros _. exists (csv_pattern "clean_tracks_").
    split; [right; left|]. by rewrite Hcsv.
  - split; [|done]. intros _. exists (parquet_pattern "clean_tracks_").
    split; [left|]. by rewrite Hpq.
Qed.

(** X14. [check_data] passes exactly when the directory exists and
    [load_data] would load a tracks table from it; the number of files it
    reports is the number of entries matching one of the two tracks
    patterns. *)
Theorem check_data_agrees_with_load_data (data_dir : option (list File)) :
  (run_dashboard.check_data data_dir = true
   ↔ ∃ dir self, data_dir = Some dir ∧ load_data dir = Ok self)
  ∧ ∀ dir, length (run_dashboard.processed_files dir)
           = length (filter (matches_any track_patterns) dir).
Proof.
  split.
  - destruct data_dir as [dir|].
    + rewrite check_data_Some. split.
      * intros (p & Hp & Hne).
        destruct (load_data_cases dir) as [Hraise|[self Hok]]; [|eauto].
        destruct Hne. by apply (proj1 (load_data_raises dir) Hraise).
      * intros (dir' & self & [= <-] & Hok).
        destruct (glob (parquet_pattern "clean_tracks_") dir) as [|q qs] eqn:Hpq.
        -- destruct (glob (csv_pattern "clean_tracks_") dir) as [|c cs] eqn:Hcsv.
           ++ assert (Hraise : load_data dir = Raise FileNotFoundError).
              { apply load_data_raises. unfold track_patterns.
                intros p [->|Hp]%elem_of_cons; [done|].
                by apply list_elem_of_singleton in Hp as ->. }
              congruence.
           ++ exists (csv_pattern "clean_tracks_"). split; [right; left|].
              by rewrite Hcsv.
        -- exists (parquet_pattern "clean_tracks_"). split; [left|]. by rewrite Hpq.
    + split; [done|]. by intros (dir & self & [=] & _).
  - intros dir. unfold run_dashboard.processed_files, glob.
    rewrite filter_disjoint_length.
    + f_equal. apply list_filter_iff. intros f. unfold matches_any, track_patterns.
      rewrite !Exists_cons, Exists_nil. tauto.
    + intros f Hcsv Hpq.
      apply fnmatch_endswith, csv_is_not_parquet in Hcsv.
      apply fnmatch_endswith in Hpq. simpl in Hpq. congruence.
Qed.

(** X15. The launcher ends with exit status 0 only when every check
    passes, the dashboard script exists and the run of streamlit is
    interrupted from the keyboard: when streamlit itself ends with status 0,
    [launch_dashboard] runs off its end, returns [None], and [main] reports
    a failed launch with exit status 1. *)
Theorem launcher_exit_status (p : run_dashboard.Project) :
  (run_dashboard.main p = 0
   ↔ run_dashboard.dashboard_exists p = true
     ∧ run_dashboard.check_requirements (run_dashboard.modules p) = true
     ∧ run_dashboard.check_data (run_dashboard.data_processed p) = true
     ∧ run_dashboard.app_exists p = true
     ∧ run_dashboard.streamlit_run p = run_dashboard.KeyboardInterrupt)
  ∧ (run_dashboard.main p = 0 ∨ run_dashboard.main p = 1)
  ∧ (run_dashboard.streamlit_run p = run_dashboard.Completed →
     run_dashboard.main p = 1).
Proof.
  unfold run_dashboard.main, run_dashboard.launch_dashboard, run_dashboard.truthy.
  destruct (run_dashboard.dashboard_exists p),
    (run_dashboard.check_requirements (run_dashboard.modules p)),
    (run_dashboard.check_data (run_dashboard.data_processed p)),
    (run_dashboard.app_exists p), (run_dashboard.streamlit_run p);
    simpl; repeat split; try done; try (by left); try (by right);
    intros; intuition discriminate.
Qed.

(** * Properties of the dashboard's overview *)

Section overview_facts.
Context `{dashboard_app.IntParser}.

Lemma latest_year_Returns top_tracks y :
  dashboard_app.latest_year top_tracks = dashboard_app.Returns y →
  (∃ t, t ∈ top_tracks ∧ dashboard_app.int (substring 0 4 (dashboard_app.release_date t)) = Some y)
  ∧ ∀ t z, t ∈ top_tracks →
           dashboard_app.int (substring 0 4 (dashboard_app.release_date t)) = Some z → (z ≤ y)%Z.
Proof.
  unfold dashboard_app.latest_year.
  destruct (mapM _ top_tracks) as [[|y0 years]|] eqn:Hm; try done.
  intros [= <-]. apply mapM_Some in Hm.
  destruct (foldl_Zmax_spec y0 years) as [Hin Hmax]. split.
  - apply list_elem_of_lookup in Hin as [i Hi].
    destruct (Forall2_lookup_r _ _ _ _ _ Hm Hi) as (t & Ht & Hy).
    exists t. split; [by eapply list_elem_of_lookup_2|done].
  - intros t z Ht Hz. apply list_elem_of_lookup in Ht as [i Hi].
    destruct (Forall2_lookup_l _ _ _ _ _ Hm Hi) as (z' & Hz' & Hy).
    apply Hmax. rewrite Hz in Hy. injection Hy as <-.
    by eapply list_elem_of_lookup_2.
Qed.

(** X16. The overview page on [top_tracks]: an empty list raises
    [ZeroDivisionError] (the average is computed first); a list with a
    release date whose first four characters are no integer raises
    [ValueError]; otherwise the metrics are the number of tracks, an average
    popularity lying between any bounds on the popularities, and as latest
    year the largest of the years, which is the year of one of the
    tracks. *)
Theorem overview_outcome (top_tracks : list dashboard_app.Track) :
  (top_tracks = [] → dashboard_app.overview top_tracks = dashboard_app.Raises dashboard_app.ZeroDivisionError)
  ∧ (top_tracks ≠ [] →
     (∃ t, t ∈ top_tracks ∧ dashboard_app.int (substring 0 4 (dashboard_app.release_date t)) = None) →
     dashboard_app.overview top_tracks = dashboard_app.Raises dashboard_app.ValueError)
  ∧ (top_tracks ≠ [] →
     (∀ t, t ∈ top_tracks →
           is_Some (dashboard_app.int (substring 0 4 (dashboard_app.release_date t)))) →
     ∃ avg latest,
       dashboard_app.overview top_tracks = dashboard_app.Returns (length top_tracks, avg, latest)
       ∧ (∃ t, t ∈ top_tracks
               ∧ dashboard_app.int (substring 0 4 (dashboard_app.release_date t)) = Some latest)
       ∧ (∀ t z, t ∈ top_tracks →
                 dashboard_app.int (substring 0 4 (dashboard_app.release_date t)) = Some z →
                 (z ≤ latest)%Z)
       ∧ ∀ lo hi,
           (∀ t, t ∈ top_tracks →
                 (lo ≤ dashboard_app.popularity t)%Qc ∧ (dashboard_app.popularity t ≤ hi)%Qc) →
           (lo ≤ avg)%Qc ∧ (avg ≤ hi)%Qc).
Proof.
  split; [by intros ->|]. split.
  - intros Hne Hbad. unfold dashboard_app.overview, dashboard_app.avg_popularity, dashboard_app.latest_year.
    destruct top_tracks as [|t0 ts]; [done|].
    assert (Hm : mapM (λ track, dashboard_app.int (substring 0 4 (dashboard_app.release_date track)))
                      (t0 :: ts) = None).
    { apply mapM_None, Exists_exists. destruct Hbad as (t & Ht & Hnone). eauto. }
    by rewrite Hm.
  - intros Hne Hgood. unfold dashboard_app.overview.
    destruct (dashboard_app.latest_year top_tracks) as [latest|e] eqn:Hlatest.
    + destruct top_tracks as [|t0 ts] eqn:Htracks; [done|]. rewrite <- Htracks in *.
      assert (Havg : dashboard_app.avg_popularity top_tracks
                     = dashboard_app.Returns (Qc_sum (dashboard_app.popularity <$> top_tracks)
                                    / Qc_of_Z (Z.of_nat (length top_tracks)))%Qc).
      { by rewrite Htracks. }
      rewrite Havg. eexists _, latest. split; [done|].
      destruct (latest_year_Returns _ _ Hlatest) as [Hone Hmax].
      split; [done|]. split; [done|].
      intros lo hi Hall.
      apply (mean_bounds (dashboard_app.popularity <$> top_tracks)).
      * intros q (t & -> & Ht)%list_elem_of_fmap. by apply Hall.
      * unfold mean. rewrite Htracks at 1. csimpl. by rewrite length_fmap.
    + exfalso. unfold dashboard_app.latest_year in Hlatest.
      destruct (mapM _ top_tracks) as [[|y ys]|] eqn:Hm; try done.
      * apply mapM_Some, Forall2_nil_inv_r in Hm. done.
      * apply mapM_None, Exists_exists in Hm as (t & Ht & Hnone).
        destruct (Hgood t Ht) as [z Hz]. congruence.
Qed.

End overview_facts.

(** * Examples *)

Example scenario_summary_stats :
  (create_summary_stats (H := iso_parser) example_generator).1
  = {| total_tracks := 3; total_playlists := 0; unique_artists := 2;
       unique_albums := 0; year_range := Some (Some (2020, 2021)%Z) |}.
Proof. by vm_compute. Qed.

Example scenario_top_artists :
  create_top_artists_chart example_generator
  = Some (Bar [2; 1] [VStr "A"; VStr "B"]).
Proof. by vm_compute. Qed.

Example scenario_groupby_mean :
  groupby_mean (year_cell <$> to_datetime_year (DatetimeParser := iso_parser) example_dates)
               [[num 1 2; num 7 10; num 9 10]]
  = [(Qc_of_Z 2020, [Some (Q2Qc (7 # 10))]); (Qc_of_Z 2021, [Some (Q2Qc (7 # 10))])].
Proof. apply (bool_decide_unpack _). by vm_compute. Qed.

(** A parquet file is loaded even when a CSV file is newer than it. *)
Example older_parquet_still_loaded :
  load_latest track_patterns [old_parquet; mid_csv] = Some (read_parquet, old_parquet).
Proof. by vm_compute. Qed.

(** ** Instances of the theorems *)


Lemma year_range_witness :
  ∃ lo hi,
    year_range (create_summary_stats (H := iso_parser) example_generator).1
    = Some (Some (lo, hi))
    ∧ lo ∈ parsed_years (to_datetime_year (DatetimeParser := iso_parser) example_dates)
    ∧ hi ∈ parsed_years (to_datetime_year (DatetimeParser := iso_parser) example_dates)
    ∧ ∀ y, y ∈ parsed_years (to_datetime_year (DatetimeParser := iso_parser) example_dates)
           → (lo ≤ y ≤ hi)%Z.
Proof.
  apply (year_range_min_max_or_None (H := iso_parser) example_generator example_dates).
  - by vm_compute.
  - by vm_compute.
Defined.


Lemma yearly_trends_after_summary_stats_witness :
  ∃ years : list Z,
    create_yearly_trends (create_summary_stats (H := iso_parser) example_generator).2
    = Some (Scatter
              ((λ feature,
                  (title feature,
                   (Qc_of_Z <$> years,
                    (λ y, series_mean
                            (rows_of_year y
                               (to_datetime_year (DatetimeParser := iso_parser) example_dates)
                               (getitem (tracks_df example_generator) feature)))
                      <$> years)))
                 <$> available (tracks_df example_generator) trend_features))
    ∧ StronglySorted Z.lt years
    ∧ NoDup years
    ∧ ∀ y, y ∈ years
           ↔ Some y ∈ to_datetime_year (DatetimeParser := iso_parser) example_dates
             ∧ (1990 ≤ y ≤ 2025)%Z.
Proof.
  apply (yearly_trends_after_summary_stats (H := iso_parser) example_generator example_dates).
  - by vm_compute.
  - by vm_compute.
Defined.

(** C3, as the specification states it, fails: with [release_date] and
    [danceability] but no [release_year] the method returns [None]. *)
Lemma yearly_trends_counterexample :
  columns (tracks_df example_generator) !! "release_date" = Some example_dates
  ∧ available (tracks_df example_generator) trend_features = ["danceability"]
  ∧ create_yearly_trends example_generator = None.
Proof. by vm_compute. Qed.






Lemma flat_energy_varies : varies (getitem flat_tracks "energy").
Proof.
  exists (Q2Qc (1 # 5)), (Q2Qc (4 # 5)).
  assert (Hcol : getitem flat_tracks "energy" = [num 1 5; num 4 5])
    by (by vm_compute).
  rewrite Hcol. unfold num. split; [left|]. split; [right; left|].
  intros Heq. by apply (f_equal this) in Heq.
Qed.

(** A column that varies has 1 on the diagonal. *)
Example flat_energy_diagonal :
  matrix_entry (corr (getitem flat_tracks <$> ["danceability"; "energy"])) 1 1
  = Some (Some 1%R).
Proof. apply (corr_diagonal _ _ 1 "energy"); [done|apply flat_energy_varies]. Qed.


(** ** Instances of the further properties *)

Example dotenv_alone_is_reported_missing :
  run_dashboard.missing_packages {["streamlit"; "plotly"; "pandas"; "dotenv"]}
  = ["python-dotenv"].
Proof. by vm_compute. Qed.


Lemma example_tracks_well_formed : well_formed example_tracks.
Proof.
  intros c s Hcs.
  assert (Hall : map_Forall (λ _ (s : list value), length s = 3) (columns example_tracks)).
  { apply (bool_decide_unpack _). by vm_compute. }
  by apply Hall in Hcs.
Qed.

Lemma unique_counts_witness :
  unique_artists (create_summary_stats (H := iso_parser) example_generator).1
  ≤ total_tracks (create_summary_stats (H := iso_parser) example_generator).1
  ∧ unique_albums (create_summary_stats (H := iso_parser) example_generator).1
    ≤ total_tracks (create_summary_stats (H := iso_parser) example_generator).1.
Proof.
  apply (unique_counts_at_most_total_tracks (H := iso_parser) example_generator).
  apply example_tracks_well_formed.
Defined.



Lemma sparse_features :
  available (tracks_df sparse_generator) heatmap_features = ["danceability"; "energy"].
Proof. by vm_compute. Qed.

Lemma sparse_heatmap :
  create_correlation_heatmap sparse_generator
  = Some (Imshow ["danceability"; "energy"]
                 (corr (getitem sparse_tracks <$> ["danceability"; "energy"]))).
Proof.
  rewrite create_correlation_heatmap_Some; rewrite sparse_features; [done|].
  simpl. lia.
Qed.

Lemma sparse_danceability_no_number :
  ∀ q, ¬ (VNum q ∈ getitem (tracks_df sparse_generator) "danceability").
Proof.
  intros q Hq.
  assert (Hcol : getitem (tracks_df sparse_generator) "danceability" = [VNull; VNull])
    by (by vm_compute).
  rewrite Hcol in Hq.
  repeat (apply elem_of_cons in Hq as [Hq|Hq]; [discriminate|]).
  by apply elem_of_nil in Hq.
Qed.

Lemma correlation_nan_witness :
  matrix_entry (corr (getitem sparse_tracks <$> ["danceability"; "energy"])) 0 1
  = Some None
  ∧ matrix_entry (corr (getitem sparse_tracks <$> ["danceability"; "energy"])) 1 0
    = Some None.
Proof.
  apply (correlation_nan_for_column_without_numbers sparse_generator
           ["danceability"; "energy"] _ 0 "danceability").
  - apply sparse_heatmap.
  - reflexivity.
  - apply sparse_danceability_no_number.
  - simpl. lia.
Defined.

Lemma load_latest_witness :
  ∃ before p after l1 l2,
    track_patterns = before ++ p :: after
    ∧ (∀ q, q ∈ before → glob q example_dir = [])
    ∧ glob p example_dir = l1 ++ new_parquet :: l2
    ∧ (∀ g, g ∈ l1 → (ctime g < ctime new_parquet)%Z)
    ∧ (∀ g, g ∈ l2 → (ctime g ≤ ctime new_parquet)%Z)
    ∧ read_parquet
      = (if endswith (name new_parquet) ".parquet" then read_parquet else read_csv).
Proof.
  apply (load_latest_first_pattern_first_newest track_patterns example_dir).
  by vm_compute.
Defined.

Lemma playlists_are_optional_witness :
  (playlists_df example_generator = None
   ↔ ∀ p, p ∈ playlist_patterns → glob p example_dir = [])
  ∧ (playlists_df example_generator = None →
     total_playlists (create_summary_stats (H := iso_parser) example_generator).1 = 0)
  ∧ (∀ r f, load_latest playlist_patterns example_dir = Some (r, f) →
       playlists_df example_generator = Some (frame f)
       ∧ total_playlists (create_summary_stats (H := iso_parser) example_generator).1
         = len (frame f)).
Proof.
  apply (playlists_are_optional (H := iso_parser) example_dir example_generator).
  by vm_compute.
Defined.
